(** * mcp-arr: the *arr suite API client ([src/arr-client.ts])

    A shallow embedding of the REST client shared by the five service
    families (Sonarr, Radarr, Lidarr, Readarr, Prowlarr) and the
    properties its specification states about it.

    Layout:
    - [Js]: the parts of the JavaScript runtime the client calls
      (values, errors, promises, [fetch], [Response], [URLSearchParams],
      [encodeURIComponent]);
    - [ArrClient], [SonarrClient], ... : one module per class of the
      source, one definition per method;
    - [Call], [invoke]: the public methods as data, to quantify over
      "every operation";
    - [TestRuntime]: an executable runtime with a scripted remote, used
      to run the client on concrete inputs;
    - [Ops]: groups of methods that share a pattern;
    - [Server]: the start-up code and the handler cases of the server
      that use the clients without reshaping their results;
    - [Pending]: the executor, [getStatus] and [testConnection] in
      front of a remote that may never answer;
    - the theorems. *)

From Stdlib Require Import Ascii String ZArith NArith.
From stdpp Require Import gmap strings list fin_maps pretty.

Set Warnings "-register-all".
Open Scope string_scope.
Open Scope list_scope.

(* ===================================================================== *)
(** * The JavaScript runtime, as far as the client uses it               *)
(* ===================================================================== *)

Module Js.

(** JavaScript values that cross the client's interface.  Numbers are
    restricted to integers: every number the client formats or sends is
    an entity id.  Objects are finite maps from property names to
    values; a property may hold [JUndefined]. *)
Inductive JsValue : Type :=
  | JUndefined
  | JNull
  | JBool (b : bool)
  | JNumber (n : Z)
  | JString (s : string)
  | JArray (l : list JsValue)
  | JObject (m : gmap string JsValue).

(** Property read [o.k]: a missing property reads as [undefined]. *)
Definition get (o : gmap string JsValue) (k : string) : JsValue :=
  default JUndefined (o !! k).

(** [a ?? b]: [b] when [a] is [null] or [undefined], [a] otherwise. *)
Definition nullish (a b : JsValue) : JsValue :=
  match a with
  | JUndefined | JNull => b
  | _ => a
  end.

(** Object spread [{...base, ...over}]: properties of [over] win. *)
Definition spread {V} (base over : gmap string V) : gmap string V :=
  over ∪ base.


(** Truthiness of an optional number argument: [undefined] and [0] are
    falsy. *)
Definition truthy_number (n : option Z) : bool :=
  match n with
  | Some 0%Z => false
  | Some _ => true
  | None => false
  end.

(** [`${n}`] and [n.toString()] for an integer.  The decimal digits are
    what the engine prints for a safe integer ([is_safe_integer]);
    beyond them the engine rounds to the nearest double and switches to
    the exponent form from 1e21 on, which is not modelled: statements
    that depend on the digits are made for safe integers. *)
Definition Number_toString (n : Z) : string := pretty n.

(** [Number.isSafeInteger(n)]: every integer up to 2^53 - 1 in absolute
    value is a double of its own, printed digit for digit. *)
Definition is_safe_integer (n : Z) : bool :=
  ((-9007199254740991 <=? n) && (n <=? 9007199254740991))%Z.

(** [s.replace(/\/$/, '')]: without the [m] flag [$] matches at the end
    of the input only, so exactly one final slash is dropped, if any. *)
Fixpoint replace_trailing_slash (s : string) : string :=
  match s with
  | "" => ""
  | String c s' =>
      match s' with
      | "" => if Ascii.eqb c "/" then "" else s
      | _ => String c (replace_trailing_slash s')
      end
  end.

(** ** Percent-encoding, [URLSearchParams], [encodeURIComponent]

    Strings are sequences of bytes; a JavaScript string is read as its
    UTF-8 encoding, which is what both encoders work on. *)

Definition is_alphanumeric (c : ascii) : bool :=
  let n := N_of_ascii c in
  ((48 <=? n) && (n <=? 57) || (65 <=? n) && (n <=? 90)
   || (97 <=? n) && (n <=? 122))%N.

(** The upper-case hexadecimal digit of a value below 16. *)
Definition hex_digit (n : N) : ascii :=
  if (n <? 10)%N then ascii_of_N (48 + n) else ascii_of_N (55 + n).

(** The value of a hexadecimal digit of either case. *)
Definition hex_value (c : ascii) : option N :=
  let n := N_of_ascii c in
  if ((48 <=? n) && (n <=? 57))%N then Some (n - 48)%N
  else if ((65 <=? n) && (n <=? 70))%N then Some (n - 55)%N
  else if ((97 <=? n) && (n <=? 102))%N then Some (n - 87)%N
  else None.

(** [%XX] for one byte. *)
Definition percent_encode_byte (c : ascii) : string :=
  let n := N_of_ascii c in
  String "%" (String (hex_digit (n / 16)) (String (hex_digit (n mod 16)) "")).

(** Membership of a byte in a string of bytes. *)
Fixpoint mem_ascii (c : ascii) (s : string) : bool :=
  match s with
  | "" => false
  | String d s' => Ascii.eqb c d || mem_ascii c s'
  end.

(** The application/x-www-form-urlencoded serializer, on one byte: a
    space becomes [+], alphanumerics and [*-._] stay, the rest is
    percent-encoded. *)
Definition urlencoded_byte (c : ascii) : string :=
  if Ascii.eqb c " " then "+"
  else if is_alphanumeric c || mem_ascii c "*-._" then String c ""
  else percent_encode_byte c.

Fixpoint urlencoded_serialize (s : string) : string :=
  match s with
  | "" => ""
  | String c s' => urlencoded_byte c +:+ urlencoded_serialize s'
  end.

(** A byte between two bounds. *)
Definition in_range (lo hi : N) (c : ascii) : bool :=
  let n := N_of_ascii c in ((lo <=? n) && (n <=? hi))%N.

(** The second byte a leading byte of a three-byte sequence admits:
    no overlong form after E0, no surrogate after ED. *)
Definition three_byte_ok (a b : ascii) : bool :=
  in_range 224 224 a && in_range 160 191 b
  || in_range 225 236 a && in_range 128 191 b
  || in_range 237 237 a && in_range 128 159 b
  || in_range 238 239 a && in_range 128 191 b.

(** The second byte a leading byte of a four-byte sequence admits. *)
Definition four_byte_ok (a b : ascii) : bool :=
  in_range 240 240 a && in_range 144 191 b
  || in_range 241 243 a && in_range 128 191 b
  || in_range 244 244 a && in_range 128 143 b.

(** [s.isWellFormed()]: the string has no lone surrogate.  On the bytes
    of the model: they are valid UTF-8, which has no encoding for a
    surrogate.  Only such byte strings stand for a string the code
    encodes; for a string with a lone surrogate the real
    [encodeURIComponent] throws a [URIError], a path the model does not
    have: statements about an encoded term are made for well-formed
    terms. *)
Fixpoint is_well_formed (s : string) : bool :=
  match s with
  | "" => true
  | String a s1 =>
      if in_range 0 127 a then is_well_formed s1
      else
        match s1 with
        | "" => false
        | String b s2 =>
            if in_range 194 223 a then in_range 128 191 b && is_well_formed s2
            else
              match s2 with
              | "" => false
              | String c s3 =>
                  if three_byte_ok a b
                  then in_range 128 191 c && is_well_formed s3
                  else
                    match s3 with
                    | "" => false
                    | String d s4 =>
                        four_byte_ok a b && in_range 128 191 c
                        && in_range 128 191 d && is_well_formed s4
                    end
              end
        end
  end.

(** [encodeURIComponent] on a well-formed string: alphanumerics and
    [-_.!~*'()] stay, the rest is percent-encoded. *)
Definition uri_component_byte (c : ascii) : string :=
  if is_alphanumeric c || mem_ascii c "-_.!~*'()" then String c ""
  else percent_encode_byte c.

Fixpoint encodeURIComponent (s : string) : string :=
  match s with
  | "" => ""
  | String c s' => uri_component_byte c +:+ encodeURIComponent s'
  end.

(** Percent-decoding: [%] followed by two hexadecimal digits is one
    byte, everything else stands for itself. *)
Fixpoint percent_decode (s : string) : string :=
  match s with
  | "" => ""
  | String c s' =>
      if Ascii.eqb c "%" then
        match s' with
        | String h (String l s'') =>
            match hex_value h, hex_value l with
            | Some a, Some b => String (ascii_of_N (16 * a + b)) (percent_decode s'')
            | _, _ => String c (percent_decode s')
            end
        | _ => String c (percent_decode s')
        end
      else String c (percent_decode s')
  end.

(** [s] cut at every occurrence of [sep]. *)
Fixpoint split_on (sep : ascii) (s : string) : list string :=
  match s with
  | "" => [""]
  | String c s' =>
      if Ascii.eqb c sep then "" :: split_on sep s'
      else match split_on sep s' with
           | h :: t => String c h :: t
           | [] => [String c ""]
           end
  end.

(** [s] cut at the first occurrence of [sep], if there is one. *)
Fixpoint cut_at (sep : ascii) (s : string) : option (string * string) :=
  match s with
  | "" => None
  | String c s' =>
      if Ascii.eqb c sep then Some ("", s')
      else match cut_at sep s' with
           | Some (a, b) => Some (String c a, b)
           | None => None
           end
  end.

Fixpoint plus_to_space (s : string) : string :=
  match s with
  | "" => ""
  | String c s' => String (if Ascii.eqb c "+" then " "%char else c) (plus_to_space s')
  end.

(** Truthiness of a string: only the empty string is falsy. *)
Definition truthy (s : string) : bool := negb (String.eqb s "").

(** Truthiness of an optional string argument ([if (s) ...]):
    [undefined] is falsy too. *)
Definition truthy_string (s : option string) : bool :=
  match s with
  | Some s => truthy s
  | None => false
  end.

Module URLSearchParams.
(** The list of name-value pairs, in insertion order. *)
Definition t : Type := list (string * string).

(** [new URLSearchParams()]. *)
Definition empty : t := [].

(** [params.append(name, value)]. *)
Definition append (params : t) (name value : string) : t :=
  (params ++ [(name, value)])%list.

Definition serialize_pair (p : string * string) : string :=
  urlencoded_serialize (fst p) +:+ "=" +:+ urlencoded_serialize (snd p).

(** [params.toString()]. *)
Definition toString (params : t) : string :=
  String.concat "&" (map serialize_pair params).

Definition parse_pair (sequence : string) : string * string :=
  let '(name, value) :=
    match cut_at "=" sequence with
    | Some (a, b) => (a, b)
    | None => (sequence, "")
    end in
  (percent_decode (plus_to_space name), percent_decode (plus_to_space value)).

(** The application/x-www-form-urlencoded parser, which the receiving
    end applies to the query string. *)
Definition parse (query : string) : t :=
  map parse_pair (List.filter truthy (split_on "&" query)).
End URLSearchParams.

(** ** Errors and settled promises *)

(** The reasons a promise of the client is rejected with. *)
Inductive JsError : Type :=
  | Error (message : string)      (* [new Error(message)] *)
  | TypeError (message : string)  (* [fetch]: network failure, broken body stream *)
  | SyntaxError.                  (* [JSON.parse]: the text is not JSON *)

(** The outcome of awaiting a promise.  Every promise is taken to
    settle: a remote that never answers is not represented. *)
Inductive Settled (A : Type) : Type :=
  | Fulfilled (a : A)
  | Rejected (e : JsError).
Arguments Fulfilled {A} a.
Arguments Rejected {A} e.

Definition is_fulfilled {A} (s : Settled A) : bool :=
  match s with Fulfilled _ => true | Rejected _ => false end.

(** ** Requests and responses *)

(** The members of [RequestInit] the client sets or forwards. *)
Module RequestInit.
Record t : Type := mk {
  method : option string;
  headers : option (gmap string string);
  body : option string
}.
(** [{}], the default value of the [options] parameter. *)
Definition empty : t := {| method := None; headers := None; body := None |}.
(** The method [fetch] uses: GET unless the init names one. *)
Definition effective_method (i : t) : string := default "GET" (method i).
End RequestInit.

(** One invocation [fetch(url, init)], with the init object as the
    client built it. *)
Record FetchCall : Type := mkFetchCall {
  fetch_url : string;
  fetch_init : RequestInit.t
}.

(** A response as the client observes it: the status line and the
    outcome of consuming the body stream as text. *)
Module Response.
Record t : Type := mk {
  status : N;
  statusText : string;
  body : Settled string
}.
(** [response.ok]: the status is in the range 200-299. *)
Definition ok (r : t) : bool := ((200 <=? status r) && (status r <=? 299))%N.
End Response.

(** What the client takes from its environment: the remote end of
    [fetch], which may answer differently each time ([NetState]), and the
    JSON codec. *)
Class Runtime : Type := {
  NetState : Type;
  net_fetch : FetchCall -> NetState -> Settled Response.t * NetState;
  JSON_parse : string -> option JsValue;
  JSON_stringify : JsValue -> string
}.

(** The world an asynchronous computation runs in: the remote's state
    and the log of the [fetch] invocations made so far. *)
Record World `{Runtime} : Type := mkWorld {
  net : NetState;
  sent : list FetchCall
}.

(** An [async] function body: it runs in a world and settles. *)
Definition Async `{Runtime} (A : Type) : Type := World -> Settled A * World.

Section Async.
Context `{Runtime}.

Definition ret {A} (a : A) : Async A := fun w => (Fulfilled a, w).

Definition throw {A} (e : JsError) : Async A := fun w => (Rejected e, w).

(** [await m] followed by [k]: a rejection of [m] skips [k]. *)
Definition bind {A B} (m : Async A) (k : A -> Async B) : Async B :=
  fun w =>
    match m w with
    | (Fulfilled a, w') => k a w'
    | (Rejected e, w') => (Rejected e, w')
    end.

(** [try { m } catch { h }]. *)
Definition try_catch {A} (m : Async A) (h : JsError -> Async A) : Async A :=
  fun w =>
    match m w with
    | (Fulfilled a, w') => (Fulfilled a, w')
    | (Rejected e, w') => h e w'
    end.

(** Awaiting an already settled promise. *)
Definition settle {A} (s : Settled A) : Async A := fun w => (s, w).

(** [fetch(url, init)]: one exchange with the remote, logged. *)
Definition fetch (url : string) (init : RequestInit.t) : Async Response.t :=
  fun w =>
    let call := mkFetchCall url init in
    let '(r, n) := net_fetch call (net w) in
    (r, {| net := n; sent := sent w ++ [call] |}).

(** [response.text()]. *)
Definition Response_text (r : Response.t) : Async string :=
  settle (Response.body r).

(** [response.json()]: the body text run through [JSON.parse]. *)
Definition Response_json (r : Response.t) : Async JsValue :=
  bind (Response_text r) (fun text =>
    match JSON_parse text with
    | Some v => ret v
    | None => throw SyntaxError
    end).
End Async.

End Js.

Export Js.

Notation "'do' x <- m ; k" := (bind m (fun x => k))
  (at level 10, x name, m at level 100, k at level 200,
   format "'[v' 'do'  x  <-  m ; '/' k ']'").

(* ===================================================================== *)
(** * The client                                                         *)
(* ===================================================================== *)

Inductive ArrService : Type := sonarr | radarr | lidarr | readarr | prowlarr.

(** The string a member of the union type [ArrService] is. *)
Definition ArrService_toString (s : ArrService) : string :=
  match s with
  | sonarr => "sonarr"
  | radarr => "radarr"
  | lidarr => "lidarr"
  | readarr => "readarr"
  | prowlarr => "prowlarr"
  end.

Record ArrConfig : Type := mkArrConfig {
  url : string;
  apiKey : string
}.

Module ArrClient.

(** The fields of an instance. *)
Record t : Type := mk {
  config : ArrConfig;
  serviceName : ArrService;
  apiVersion : string
}.

(** [constructor(serviceName, config)]; [apiVersion] takes its
    initializer ['v3']. *)
Definition constructor (serviceName : ArrService) (config : ArrConfig) : t :=
  {| serviceName := serviceName;
     config := {| url := replace_trailing_slash (url config);
                  apiKey := apiKey config |};
     apiVersion := "v3" |}.

Section Methods.
Context `{Runtime}.

(** The URL [request] builds. *)
Definition request_url (this : t) (endpoint : string) : string :=
  url (config this) +:+ "/api/" +:+ apiVersion this +:+ endpoint.

(** The headers [request] builds. *)
Definition request_headers (this : t) (options : RequestInit.t)
  : gmap string string :=
  spread
    (<["X-Api-Key" := apiKey (config this)]>
       (<["Content-Type" := "application/json"]> ∅))
    (default ∅ (RequestInit.headers options)).

(** The init [{...options, headers}] handed to [fetch]. *)
Definition request_init (this : t) (options : RequestInit.t) : RequestInit.t :=
  {| RequestInit.method := RequestInit.method options;
     RequestInit.headers := Some (request_headers this options);
     RequestInit.body := RequestInit.body options |}.

(** The message of the [Error] thrown for a response that is not ok. *)
Definition error_message (this : t) (response : Response.t) (text : string)
  : string :=
  ArrService_toString (serviceName this) +:+ " API error: "
    +:+ pretty (Response.status response) +:+ " "
    +:+ Response.statusText response +:+ " - " +:+ text.

Definition request (this : t) (endpoint : string) (options : RequestInit.t)
  : Async JsValue :=
  let url := request_url this endpoint in
  let init := request_init this options in
  do response <- fetch url init;
  if negb (Response.ok response) then
    do text <- Response_text response;
    throw (Error (error_message this response text))
  else
    Response_json response.


Definition getStatus (this : t) : Async JsValue :=
  request this "/system/status" RequestInit.empty.

Definition getQueue (this : t) : Async JsValue :=
  request this
    "/queue?includeUnknownSeriesItems=true&includeUnknownMovieItems=true"
    RequestInit.empty.

Definition getCalendar (this : t) (start end_ : option string) : Async JsValue :=
  let params := URLSearchParams.empty in
  let params :=
    if truthy_string start
    then URLSearchParams.append params "start" (default "" start)
    else params in
  let params :=
    if truthy_string end_
    then URLSearchParams.append params "end" (default "" end_)
    else params in
  let query :=
    if truthy (URLSearchParams.toString params)
    then "?" +:+ URLSearchParams.toString params
    else "" in
  request this ("/calendar" +:+ query) RequestInit.empty.

Definition getRootFolders (this : t) : Async JsValue :=
  request this "/rootfolder" RequestInit.empty.

(** [try { await this.getStatus(); return true; } catch { return false; }] *)
Definition testConnection (this : t) : Async JsValue :=
  try_catch
    (do status <- getStatus this; ret (JBool true))
    (fun _ => ret (JBool false)).

Definition getQualityProfiles (this : t) : Async JsValue :=
  request this "/qualityprofile" RequestInit.empty.

Definition getQualityDefinitions (this : t) : Async JsValue :=
  request this "/qualitydefinition" RequestInit.empty.

Definition getDownloadClients (this : t) : Async JsValue :=
  request this "/downloadclient" RequestInit.empty.

Definition getNamingConfig (this : t) : Async JsValue :=
  request this "/config/naming" RequestInit.empty.

Definition getMediaManagement (this : t) : Async JsValue :=
  request this "/config/mediamanagement" RequestInit.empty.

Definition getHealth (this : t) : Async JsValue :=
  request this "/health" RequestInit.empty.

Definition getTags (this : t) : Async JsValue :=
  request this "/tag" RequestInit.empty.

Definition getRootFoldersDetailed (this : t) : Async JsValue :=
  request this "/rootfolder" RequestInit.empty.

Definition getIndexers (this : t) : Async JsValue :=
  request this "/indexer" RequestInit.empty.

End Methods.
End ArrClient.

(** The init [{ method: 'POST', body: JSON.stringify(payload) }]. *)
Definition post_json `{Runtime} (payload : JsValue) : RequestInit.t :=
  {| RequestInit.method := Some "POST";
     RequestInit.headers := None;
     RequestInit.body := Some (JSON_stringify payload) |}.

(** The init [{ method: 'POST' }]. *)
Definition post_empty : RequestInit.t :=
  {| RequestInit.method := Some "POST";
     RequestInit.headers := None;
     RequestInit.body := None |}.

(** [this.apiVersion = version], the assignment in the constructors of
    the v1 families. *)
Definition set_apiVersion (this : ArrClient.t) (version : string) : ArrClient.t :=
  {| ArrClient.config := ArrClient.config this;
     ArrClient.serviceName := ArrClient.serviceName this;
     ArrClient.apiVersion := version |}.

Module SonarrClient.

Definition constructor (config : ArrConfig) : ArrClient.t :=
  ArrClient.constructor sonarr config.

Section Methods.
Context `{Runtime}.

Definition getSeries (this : ArrClient.t) : Async JsValue :=
  ArrClient.request this "/series" RequestInit.empty.

Definition getSeriesById (this : ArrClient.t) (id : Z) : Async JsValue :=
  ArrClient.request this ("/series/" +:+ Number_toString id) RequestInit.empty.

Definition searchSeries (this : ArrClient.t) (term : string) : Async JsValue :=
  ArrClient.request this ("/series/lookup?term=" +:+ encodeURIComponent term)
    RequestInit.empty.

(** The object literal [addSeries] serializes. *)
Definition addSeries_payload (series : gmap string JsValue) : JsValue :=
  JObject
    (<["addOptions" := JObject {["searchForMissingEpisodes" := JBool true]}]>
    (<["seasonFolder" := nullish (get series "seasonFolder") (JBool true)]>
    (<["monitored" := nullish (get series "monitored") (JBool true)]>
     series))).

Definition addSeries (this : ArrClient.t) (series : gmap string JsValue)
  : Async JsValue :=
  ArrClient.request this "/series" (post_json (addSeries_payload series)).

Definition searchMissing (this : ArrClient.t) (seriesId : Z) : Async JsValue :=
  ArrClient.request this "/command"
    (post_json (JObject (<["seriesId" := JNumber seriesId]>
                        (<["name" := JString "SeriesSearch"]> ∅)))).

Definition getEpisodes (this : ArrClient.t) (seriesId : Z) (seasonNumber : option Z)
  : Async JsValue :=
  let url := "/episode?seriesId=" +:+ Number_toString seriesId in
  let url :=
    match seasonNumber with
    | Some n => url +:+ "&seasonNumber=" +:+ Number_toString n
    | None => url
    end in
  ArrClient.request this url RequestInit.empty.

Definition searchEpisode (this : ArrClient.t) (episodeIds : list Z) : Async JsValue :=
  ArrClient.request this "/command"
    (post_json (JObject (<["episodeIds" := JArray (JNumber <$> episodeIds)]>
                        (<["name" := JString "EpisodeSearch"]> ∅)))).

End Methods.
End SonarrClient.

Module RadarrClient.

Definition constructor (config : ArrConfig) : ArrClient.t :=
  ArrClient.constructor radarr config.

Section Methods.
Context `{Runtime}.

Definition getMovies (this : ArrClient.t) : Async JsValue :=
  ArrClient.request this "/movie" RequestInit.empty.

Definition getMovieById (this : ArrClient.t) (id : Z) : Async JsValue :=
  ArrClient.request this ("/movie/" +:+ Number_toString id) RequestInit.empty.

Definition searchMovies (this : ArrClient.t) (term : string) : Async JsValue :=
  ArrClient.request this ("/movie/lookup?term=" +:+ encodeURIComponent term)
    RequestInit.empty.

(** The object literal [addMovie] serializes. *)
Definition addMovie_payload (movie : gmap string JsValue) : JsValue :=
  JObject
    (<["addOptions" := JObject {["searchForMovie" := JBool true]}]>
    (<["monitored" := nullish (get movie "monitored") (JBool true)]>
     movie)).

Definition addMovie (this : ArrClient.t) (movie : gmap string JsValue)
  : Async JsValue :=
  ArrClient.request this "/movie" (post_json (addMovie_payload movie)).

Definition searchMovie (this : ArrClient.t) (movieId : Z) : Async JsValue :=
  ArrClient.request this "/command"
    (post_json (JObject (<["movieIds" := JArray [JNumber movieId]]>
                        (<["name" := JString "MoviesSearch"]> ∅)))).

End Methods.
End RadarrClient.

Module LidarrClient.

Definition constructor (config : ArrConfig) : ArrClient.t :=
  set_apiVersion (ArrClient.constructor lidarr config) "v1".

Section Methods.
Context `{Runtime}.

Definition getArtists (this : ArrClient.t) : Async JsValue :=
  ArrClient.request this "/artist" RequestInit.empty.

Definition getArtistById (this : ArrClient.t) (id : Z) : Async JsValue :=
  ArrClient.request this ("/artist/" +:+ Number_toString id) RequestInit.empty.

Definition searchArtists (this : ArrClient.t) (term : string) : Async JsValue :=
  ArrClient.request this ("/artist/lookup?term=" +:+ encodeURIComponent term)
    RequestInit.empty.

(** The object literal [addArtist] serializes. *)
Definition addArtist_payload (artist : gmap string JsValue) : JsValue :=
  JObject
    (<["addOptions" := JObject {["searchForMissingAlbums" := JBool true]}]>
    (<["monitored" := nullish (get artist "monitored") (JBool true)]>
     artist)).

Definition addArtist (this : ArrClient.t) (artist : gmap string JsValue)
  : Async JsValue :=
  ArrClient.request this "/artist" (post_json (addArtist_payload artist)).

Definition getAlbums (this : ArrClient.t) (artistId : option Z) : Async JsValue :=
  let url :=
    if truthy_number artistId
    then "/album?artistId=" +:+ Number_toString (default 0%Z artistId)
    else "/album" in
  ArrClient.request this url RequestInit.empty.

Definition getAlbumById (this : ArrClient.t) (id : Z) : Async JsValue :=
  ArrClient.request this ("/album/" +:+ Number_toString id) RequestInit.empty.

Definition searchMissingAlbums (this : ArrClient.t) (artistId : Z) : Async JsValue :=
  ArrClient.request this "/command"
    (post_json (JObject (<["artistId" := JNumber artistId]>
                        (<["name" := JString "ArtistSearch"]> ∅)))).

Definition searchAlbum (this : ArrClient.t) (albumId : Z) : Async JsValue :=
  ArrClient.request this "/command"
    (post_json (JObject (<["albumIds" := JArray [JNumber albumId]]>
                        (<["name" := JString "AlbumSearch"]> ∅)))).

Definition getCalendar (this : ArrClient.t) (start end_ : option string)
  : Async JsValue :=
  let params := URLSearchParams.empty in
  let params :=
    if truthy_string start
    then URLSearchParams.append params "start" (default "" start)
    else params in
  let params :=
    if truthy_string end_
    then URLSearchParams.append params "end" (default "" end_)
    else params in
  let query :=
    if truthy (URLSearchParams.toString params)
    then "?" +:+ URLSearchParams.toString params
    else "" in
  ArrClient.request this ("/calendar" +:+ query) RequestInit.empty.

Definition getMetadataProfiles (this : ArrClient.t) : Async JsValue :=
  ArrClient.request this "/metadataprofile" RequestInit.empty.

End Methods.
End LidarrClient.

Module ReadarrClient.

Definition constructor (config : ArrConfig) : ArrClient.t :=
  set_apiVersion (ArrClient.constructor readarr config) "v1".

Section Methods.
Context `{Runtime}.

Definition getAuthors (this : ArrClient.t) : Async JsValue :=
  ArrClient.request this "/author" RequestInit.empty.

Definition getAuthorById (this : ArrClient.t) (id : Z) : Async JsValue :=
  ArrClient.request this ("/author/" +:+ Number_toString id) RequestInit.empty.

Definition searchAuthors (this : ArrClient.t) (term : string) : Async JsValue :=
  ArrClient.request this ("/author/lookup?term=" +:+ encodeURIComponent term)
    RequestInit.empty.

(** The object literal [addAuthor] serializes. *)
Definition addAuthor_payload (author : gmap string JsValue) : JsValue :=
  JObject
    (<["addOptions" := JObject {["searchForMissingBooks" := JBool true]}]>
    (<["monitored" := nullish (get author "monitored") (JBool true)]>
     author)).

Definition addAuthor (this : ArrClient.t) (author : gmap string JsValue)
  : Async JsValue :=
  ArrClient.request this "/author" (post_json (addAuthor_payload author)).

Definition getBooks (this : ArrClient.t) (authorId : option Z) : Async JsValue :=
  let url :=
    if truthy_number authorId
    then "/book?authorId=" +:+ Number_toString (default 0%Z authorId)
    else "/book" in
  ArrClient.request this url RequestInit.empty.

Definition getBookById (this : ArrClient.t) (id : Z) : Async JsValue :=
  ArrClient.request this ("/book/" +:+ Number_toString id) RequestInit.empty.

Definition searchMissingBooks (this : ArrClient.t) (authorId : Z) : Async JsValue :=
  ArrClient.request this "/command"
    (post_json (JObject (<["authorId" := JNumber authorId]>
                        (<["name" := JString "AuthorSearch"]> ∅)))).

Definition searchBook (this : ArrClient.t) (bookIds : list Z) : Async JsValue :=
  ArrClient.request this "/command"
    (post_json (JObject (<["bookIds" := JArray (JNumber <$> bookIds)]>
                        (<["name" := JString "BookSearch"]> ∅)))).

Definition getCalendar (this : ArrClient.t) (start end_ : option string)
  : Async JsValue :=
  let params := URLSearchParams.empty in
  let params :=
    if truthy_string start
    then URLSearchParams.append params "start" (default "" start)
    else params in
  let params :=
    if truthy_string end_
    then URLSearchParams.append params "end" (default "" end_)
    else params in
  let query :=
    if truthy (URLSearchParams.toString params)
    then "?" +:+ URLSearchParams.toString params
    else "" in
  ArrClient.request this ("/calendar" +:+ query) RequestInit.empty.

Definition getMetadataProfiles (this : ArrClient.t) : Async JsValue :=
  ArrClient.request this "/metadataprofile" RequestInit.empty.

End Methods.
End ReadarrClient.

Module ProwlarrClient.

Definition constructor (config : ArrConfig) : ArrClient.t :=
  set_apiVersion (ArrClient.constructor prowlarr config) "v1".

Section Methods.
Context `{Runtime}.

Definition getIndexers (this : ArrClient.t) : Async JsValue :=
  ArrClient.request this "/indexer" RequestInit.empty.

Definition testAllIndexers (this : ArrClient.t) : Async JsValue :=
  ArrClient.request this "/indexer/testall" post_empty.

Definition testIndexer (this : ArrClient.t) (indexerId : Z) : Async JsValue :=
  ArrClient.request this ("/indexer/" +:+ Number_toString indexerId +:+ "/test")
    post_empty.

Definition getIndexerStats (this : ArrClient.t) : Async JsValue :=
  ArrClient.request this "/indexerstats" RequestInit.empty.

Definition search (this : ArrClient.t) (query : string) (categories : option (list Z))
  : Async JsValue :=
  let params := URLSearchParams.append URLSearchParams.empty "query" query in
  let params :=
    match categories with
    | Some cs =>
        foldl (fun ps c => URLSearchParams.append ps "categories" (Number_toString c))
              params cs
    | None => params
    end in
  ArrClient.request this ("/search?" +:+ URLSearchParams.toString params)
    RequestInit.empty.

End Methods.
End ProwlarrClient.

(* ===================================================================== *)
(** * The public methods as data                                         *)
(* ===================================================================== *)

(** One constructor per public method of the five classes, with its
    arguments. *)
Inductive Call : Type :=
  (* ArrClient *)
  | CGetStatus | CGetQueue | CGetCalendar (start end_ : option string)
  | CGetRootFolders | CTestConnection | CGetQualityProfiles
  | CGetQualityDefinitions | CGetDownloadClients | CGetNamingConfig
  | CGetMediaManagement | CGetHealth | CGetTags | CGetRootFoldersDetailed
  | CGetIndexers
  (* SonarrClient *)
  | CGetSeries | CGetSeriesById (id : Z) | CSearchSeries (term : string)
  | CAddSeries (series : gmap string JsValue) | CSearchMissing (seriesId : Z)
  | CGetEpisodes (seriesId : Z) (seasonNumber : option Z)
  | CSearchEpisode (episodeIds : list Z)
  (* RadarrClient *)
  | CGetMovies | CGetMovieById (id : Z) | CSearchMovies (term : string)
  | CAddMovie (movie : gmap string JsValue) | CSearchMovie (movieId : Z)
  (* LidarrClient *)
  | CGetArtists | CGetArtistById (id : Z) | CSearchArtists (term : string)
  | CAddArtist (artist : gmap string JsValue) | CGetAlbums (artistId : option Z)
  | CGetAlbumById (id : Z) | CSearchMissingAlbums (artistId : Z)
  | CSearchAlbum (albumId : Z) | CLidarrGetCalendar (start end_ : option string)
  | CLidarrGetMetadataProfiles
  (* ReadarrClient *)
  | CGetAuthors | CGetAuthorById (id : Z) | CSearchAuthors (term : string)
  | CAddAuthor (author : gmap string JsValue) | CGetBooks (authorId : option Z)
  | CGetBookById (id : Z) | CSearchMissingBooks (authorId : Z)
  | CSearchBook (bookIds : list Z) | CReadarrGetCalendar (start end_ : option string)
  | CReadarrGetMetadataProfiles
  (* ProwlarrClient *)
  | CProwlarrGetIndexers | CTestAllIndexers | CTestIndexer (indexerId : Z)
  | CGetIndexerStats | CSearch (query : string) (categories : option (list Z)).

(** Calling a method on an instance. *)
Definition invoke `{Runtime} (this : ArrClient.t) (c : Call) : Async JsValue :=
  match c with
  | CGetStatus => ArrClient.getStatus this
  | CGetQueue => ArrClient.getQueue this
  | CGetCalendar s e => ArrClient.getCalendar this s e
  | CGetRootFolders => ArrClient.getRootFolders this
  | CTestConnection => ArrClient.testConnection this
  | CGetQualityProfiles => ArrClient.getQualityProfiles this
  | CGetQualityDefinitions => ArrClient.getQualityDefinitions this
  | CGetDownloadClients => ArrClient.getDownloadClients this
  | CGetNamingConfig => ArrClient.getNamingConfig this
  | CGetMediaManagement => ArrClient.getMediaManagement this
  | CGetHealth => ArrClient.getHealth this
  | CGetTags => ArrClient.getTags this
  | CGetRootFoldersDetailed => ArrClient.getRootFoldersDetailed this
  | CGetIndexers => ArrClient.getIndexers this
  | CGetSeries => SonarrClient.getSeries this
  | CGetSeriesById id => SonarrClient.getSeriesById this id
  | CSearchSeries term => SonarrClient.searchSeries this term
  | CAddSeries series => SonarrClient.addSeries this series
  | CSearchMissing id => SonarrClient.searchMissing this id
  | CGetEpisodes id season => SonarrClient.getEpisodes this id season
  | CSearchEpisode ids => SonarrClient.searchEpisode this ids
  | CGetMovies => RadarrClient.getMovies this
  | CGetMovieById id => RadarrClient.getMovieById this id
  | CSearchMovies term => RadarrClient.searchMovies this term
  | CAddMovie movie => RadarrClient.addMovie this movie
  | CSearchMovie id => RadarrClient.searchMovie this id
  | CGetArtists => LidarrClient.getArtists this
  | CGetArtistById id => LidarrClient.getArtistById this id
  | CSearchArtists term => LidarrClient.searchArtists this term
  | CAddArtist artist => LidarrClient.addArtist this artist
  | CGetAlbums id => LidarrClient.getAlbums this id
  | CGetAlbumById id => LidarrClient.getAlbumById this id
  | CSearchMissingAlbums id => LidarrClient.searchMissingAlbums this id
  | CSearchAlbum id => LidarrClient.searchAlbum this id
  | CLidarrGetCalendar s e => LidarrClient.getCalendar this s e
  | CLidarrGetMetadataProfiles => LidarrClient.getMetadataProfiles this
  | CGetAuthors => ReadarrClient.getAuthors this
  | CGetAuthorById id => ReadarrClient.getAuthorById this id
  | CSearchAuthors term => ReadarrClient.searchAuthors this term
  | CAddAuthor author => ReadarrClient.addAuthor this author
  | CGetBooks id => ReadarrClient.getBooks this id
  | CGetBookById id => ReadarrClient.getBookById this id
  | CSearchMissingBooks id => ReadarrClient.searchMissingBooks this id
  | CSearchBook ids => ReadarrClient.searchBook this ids
  | CReadarrGetCalendar s e => ReadarrClient.getCalendar this s e
  | CReadarrGetMetadataProfiles => ReadarrClient.getMetadataProfiles this
  | CProwlarrGetIndexers => ProwlarrClient.getIndexers this
  | CTestAllIndexers => ProwlarrClient.testAllIndexers this
  | CTestIndexer id => ProwlarrClient.testIndexer this id
  | CGetIndexerStats => ProwlarrClient.getIndexerStats this
  | CSearch query categories => ProwlarrClient.search this query categories
  end.

(** A client's life: its methods called one after the other, each
    awaited; the outcomes are collected in order. *)
Fixpoint run_calls `{Runtime} (this : ArrClient.t) (cs : list Call) (w : World)
  : list (Settled JsValue) * World :=
  match cs with
  | [] => ([], w)
  | c :: cs' =>
      let '(r, w') := invoke this c w in
      let '(rs, w'') := run_calls this cs' w' in
      (r :: rs, w'')
  end.

(** The class instantiated for each service name (the [switch] of the
    server's start-up code). *)
Definition family_constructor (s : ArrService) (config : ArrConfig) : ArrClient.t :=
  match s with
  | sonarr => SonarrClient.constructor config
  | radarr => RadarrClient.constructor config
  | lidarr => LidarrClient.constructor config
  | readarr => ReadarrClient.constructor config
  | prowlarr => ProwlarrClient.constructor config
  end.

(* ===================================================================== *)
(** * An executable runtime                                              *)
(* ===================================================================== *)

(** A runtime to run the client on concrete inputs: the remote answers
    from a script, one prepared outcome per [fetch], and the JSON codec
    covers the values of [JsValue] (integers for numbers, byte strings). *)
Module TestRuntime.

Definition dquote : ascii := "034".
Definition backslash : ascii := "\".

(** A JSON text written with apostrophes in place of double quotes. *)
Fixpoint json_text (s : string) : string :=
  match s with
  | "" => ""
  | String c s' => String (if Ascii.eqb c "'" then dquote else c) (json_text s')
  end.

(** ** Serializer *)

Definition hex_digit_lower (n : N) : ascii :=
  if (n <? 10)%N then ascii_of_N (48 + n) else ascii_of_N (87 + n).

Definition escape_char (c : ascii) : string :=
  let n := N_of_ascii c in
  if Ascii.eqb c dquote then String backslash (String dquote "")
  else if Ascii.eqb c backslash then String backslash (String backslash "")
  else if (n =? 8)%N then String backslash "b"
  else if (n =? 9)%N then String backslash "t"
  else if (n =? 10)%N then String backslash "n"
  else if (n =? 12)%N then String backslash "f"
  else if (n =? 13)%N then String backslash "r"
  else if (n <? 32)%N then
    String backslash
      (String "u" (String "0" (String "0"
        (String (hex_digit_lower (n / 16)) (String (hex_digit_lower (n mod 16)) "")))))
  else String c "".

Fixpoint escape (s : string) : string :=
  match s with
  | "" => ""
  | String c s' => escape_char c +:+ escape s'
  end.

Definition quote (s : string) : string :=
  String dquote (escape s) +:+ String dquote "".

(** [JSON.stringify] on a defined value: an [undefined] array element
    prints as [null], an [undefined] property is left out. *)
Fixpoint stringify (v : JsValue) : string :=
  match v with
  | JUndefined | JNull => "null"
  | JBool true => "true"
  | JBool false => "false"
  | JNumber n => pretty n
  | JString s => quote s
  | JArray l => "[" +:+ String.concat "," (map stringify l) +:+ "]"
  | JObject m =>
      "{" +:+ String.concat ","
        (map_fold (fun k v acc =>
                     match v with
                     | JUndefined => acc
                     | _ => (quote k +:+ ":" +:+ stringify v) :: acc
                     end) [] m) +:+ "}"
  end.

(** ** Parser *)

Definition is_ws (c : ascii) : bool :=
  let n := N_of_ascii c in
  ((n =? 32) || (n =? 9) || (n =? 10) || (n =? 13))%N.

Fixpoint skip_ws (s : string) : string :=
  match s with
  | String c s' => if is_ws c then skip_ws s' else s
  | "" => ""
  end.

Fixpoint strip_prefix (p s : string) : option string :=
  match p, s with
  | "", _ => Some s
  | String a p', String b s' => if Ascii.eqb a b then strip_prefix p' s' else None
  | String _ _, "" => None
  end.

Definition digit_value (c : ascii) : option N :=
  let n := N_of_ascii c in
  if ((48 <=? n) && (n <=? 57))%N then Some (n - 48)%N else None.

Fixpoint parse_digits (s : string) (acc : N) : N * string :=
  match s with
  | String c s' =>
      match digit_value c with
      | Some d => parse_digits s' (10 * acc + d)%N
      | None => (acc, s)
      end
  | "" => (acc, "")
  end.

Definition parse_natural (s : string) : option (N * string) :=
  match s with
  | String c _ =>
      match digit_value c with
      | Some _ => Some (parse_digits s 0%N)
      | None => None
      end
  | "" => None
  end.

Definition parse_number (s : string) : option (Z * string) :=
  match strip_prefix "-" s with
  | Some s' =>
      match parse_natural s' with
      | Some (n, r) => Some ((- Z.of_N n)%Z, r)
      | None => None
      end
  | None =>
      match parse_natural s with
      | Some (n, r) => Some (Z.of_N n, r)
      | None => None
      end
  end.

Definition unescape_simple (c : ascii) : option ascii :=
  if Ascii.eqb c dquote then Some dquote
  else if Ascii.eqb c backslash then Some backslash
  else if Ascii.eqb c "/" then Some "/"%char
  else if Ascii.eqb c "b" then Some (ascii_of_N 8)
  else if Ascii.eqb c "t" then Some (ascii_of_N 9)
  else if Ascii.eqb c "n" then Some (ascii_of_N 10)
  else if Ascii.eqb c "f" then Some (ascii_of_N 12)
  else if Ascii.eqb c "r" then Some (ascii_of_N 13)
  else None.

(** The characters of a string literal after its opening quote, up to
    and including the closing one. *)
Fixpoint parse_string_body (s : string) : option (string * string) :=
  match s with
  | "" => None
  | String c s' =>
      if Ascii.eqb c dquote then Some ("", s')
      else if Ascii.eqb c backslash then
        match s' with
        | String e s'' =>
            if Ascii.eqb e "u" then
              match s'' with
              | String a (String b (String h (String l r))) =>
                  match hex_value a, hex_value b, hex_value h, hex_value l with
                  | Some 0%N, Some 0%N, Some x, Some y =>
                      match parse_string_body r with
                      | Some (t, r') => Some (String (ascii_of_N (16 * x + y)) t, r')
                      | None => None
                      end
                  | _, _, _, _ => None
                  end
              | _ => None
              end
            else
              match unescape_simple e, parse_string_body s'' with
              | Some d, Some (t, r') => Some (String d t, r')
              | _, _ => None
              end
        | "" => None
        end
      else if (N_of_ascii c <? 32)%N then None
      else
        match parse_string_body s' with
        | Some (t, r') => Some (String c t, r')
        | None => None
        end
  end.

Definition starts_with (c : ascii) (s : string) : option string :=
  match s with
  | String d s' => if Ascii.eqb c d then Some s' else None
  | "" => None
  end.

(** Recursive descent; [fuel] bounds the number of nested calls.
    [parse_items] reads the elements of an array after the first
    bracket, [parse_members] the members of an object. *)
Fixpoint parse_value (fuel : nat) (s : string) : option (JsValue * string) :=
  match fuel with
  | O => None
  | S fuel =>
      let s := skip_ws s in
      match strip_prefix "null" s, strip_prefix "true" s, strip_prefix "false" s with
      | Some r, _, _ => Some (JNull, r)
      | _, Some r, _ => Some (JBool true, r)
      | _, _, Some r => Some (JBool false, r)
      | None, None, None =>
          match starts_with dquote s, starts_with "[" s, starts_with "{" s with
          | Some r, _, _ =>
              match parse_string_body r with
              | Some (t, r') => Some (JString t, r')
              | None => None
              end
          | _, Some r, _ =>
              match starts_with "]" (skip_ws r) with
              | Some r' => Some (JArray [], r')
              | None =>
                  match parse_items fuel r with
                  | Some (vs, r') => Some (JArray vs, r')
                  | None => None
                  end
              end
          | _, _, Some r =>
              match starts_with "}" (skip_ws r) with
              | Some r' => Some (JObject ∅, r')
              | None =>
                  match parse_members fuel r with
                  | Some (m, r') => Some (JObject m, r')
                  | None => None
                  end
              end
          | None, None, None =>
              match parse_number s with
              | Some (n, r) => Some (JNumber n, r)
              | None => None
              end
          end
      end
  end
with parse_items (fuel : nat) (s : string) : option (list JsValue * string) :=
  match fuel with
  | O => None
  | S fuel =>
      match parse_value fuel s with
      | Some (v, r) =>
          let r := skip_ws r in
          match starts_with "," r, starts_with "]" r with
          | Some r', _ =>
              match parse_items fuel r' with
              | Some (vs, r'') => Some (v :: vs, r'')
              | None => None
              end
          | _, Some r' => Some ([v], r')
          | None, None => None
          end
      | None => None
      end
  end
with parse_members (fuel : nat) (s : string)
  : option (gmap string JsValue * string) :=
  match fuel with
  | O => None
  | S fuel =>
      match starts_with dquote (skip_ws s) with
      | Some r =>
          match parse_string_body r with
          | Some (k, r) =>
              match starts_with ":" (skip_ws r) with
              | Some r =>
                  match parse_value fuel r with
                  | Some (v, r) =>
                      let r := skip_ws r in
                      match starts_with "," r, starts_with "}" r with
                      | Some r', _ =>
                          match parse_members fuel r' with
                          | Some (m, r'') => Some (<[k := v]> m, r'')
                          | None => None
                          end
                      | _, Some r' => Some ({[k := v]}, r')
                      | None, None => None
                      end
                  | None => None
                  end
              | None => None
              end
          | None => None
          end
      | None => None
      end
  end.

(** [JSON.parse]: one value, nothing but white space after it. *)
Definition parse (text : string) : option JsValue :=
  match parse_value (2 * String.length text + 2) text with
  | Some (v, r) => if truthy (skip_ws r) then None else Some v
  | None => None
  end.

(** ** Scripted remote *)

(** The remote answers the next [fetch] with the head of the script;
    past its end the connection fails. *)
Definition scripted_fetch (call : FetchCall) (script : list (Settled Response.t))
  : Settled Response.t * list (Settled Response.t) :=
  match script with
  | r :: script' => (r, script')
  | [] => (Rejected (TypeError "fetch failed"), [])
  end.

#[export] Instance runtime : Runtime := {|
  NetState := list (Settled Response.t);
  net_fetch := scripted_fetch;
  JSON_parse := parse;
  JSON_stringify := stringify
|}.

(** A world in front of a scripted remote: what is left of the script
    and the exchanges so far. *)
Definition state (script : list (Settled Response.t)) (log : list FetchCall)
  : World :=
  {| net := script; sent := log |}.

(** A fresh world. *)
Definition world (script : list (Settled Response.t)) : World :=
  state script [].

(** A response with a readable body. *)
Definition respond (status : N) (statusText body : string) : Settled Response.t :=
  Fulfilled {| Response.status := status;
               Response.statusText := statusText;
               Response.body := Fulfilled body |}.

End TestRuntime.

(** The configuration, the client and the remote answers of the
    specification's scenarios. *)
Module Scenario.

Definition config : ArrConfig :=
  {| url := "http://localhost:8989"; apiKey := "abc123" |}.

Definition client : ArrClient.t := SonarrClient.constructor config.

(** The value [[{id: 1, name: "HD-1080p"}]]. *)
Definition quality_profiles : JsValue :=
  JArray [JObject {[ "id" := JNumber 1; "name" := JString "HD-1080p" ]}].

(** Status 200 with the body [[{"id":1,"name":"HD-1080p"}]]. *)
Definition ok_200 : Settled Response.t :=
  TestRuntime.respond 200 "OK" (TestRuntime.json_text "[{'id':1,'name':'HD-1080p'}]").

(** Status 401 with the body [Unauthorized]. *)
Definition unauthorized_401 : Settled Response.t :=
  TestRuntime.respond 401 "Unauthorized" "Unauthorized".

(** Status 500 with a body stream that breaks while it is read. *)
Definition broken_500 : Response.t :=
  {| Response.status := 500;
     Response.statusText := "Internal Server Error";
     Response.body := Rejected (TypeError "terminated") |}.

(** Status 201 with the body [{"id":42}], the answer to a command. *)
Definition command_201 : Settled Response.t :=
  TestRuntime.respond 201 "Created" (TestRuntime.json_text "{'id':42}").

(** Status 200 with the body [{"version":"4.0.0","appName":"Sonarr"}],
    an answer to [/system/status]. *)
Definition status_200 : Settled Response.t :=
  TestRuntime.respond 200 "OK"
    (TestRuntime.json_text "{'version':'4.0.0','appName':'Sonarr'}").

(** Status 500 with the body [down]. *)
Definition error_500 : Settled Response.t :=
  TestRuntime.respond 500 "Internal Server Error" "down".

(** A series to add: no [monitored], and [addOptions] asking for no
    search. *)
Definition new_series : gmap string JsValue :=
  {[ "tvdbId" := JNumber 121361;
     "rootFolderPath" := JString "/tv";
     "qualityProfileId" := JNumber 1;
     "addOptions" := JObject {[ "searchForMissingEpisodes" := JBool false ]} ]}.

End Scenario.


(* ===================================================================== *)
(** * Vocabulary of the specification                                    *)
(* ===================================================================== *)

(** What the caller of [request] receives, by outcome of the exchange:
    a transport failure as it is, a response that is not ok as an
    [Error], a response that is ok as its parsed body. *)
Definition request_outcome `{Runtime} (this : ArrClient.t)
    (exchange : Settled Response.t) : Settled JsValue :=
  match exchange with
  | Rejected e => Rejected e
  | Fulfilled response =>
      match Response.body response with
      | Rejected e => Rejected e
      | Fulfilled text =>
          if Response.ok response then
            match JSON_parse text with
            | Some v => Fulfilled v
            | None => Rejected SyntaxError
            end
          else Rejected (Error (ArrClient.error_message this response text))
      end
  end.

(** What the caller of a method receives, by outcome of the exchange:
    [testConnection] answers with a boolean, every other method hands on
    what [request] produced. *)
Definition call_outcome `{Runtime} (this : ArrClient.t) (c : Call)
    (exchange : Settled Response.t) : Settled JsValue :=
  match c with
  | CTestConnection =>
      Fulfilled (JBool (is_fulfilled (request_outcome this exchange)))
  | _ => request_outcome this exchange
  end.

Module Spec.

(** The failure value the specification describes, with its fields. *)
Record TypedFailure : Type := mkTypedFailure {
  service : ArrService;
  status : N;
  statusText : string;
  body : string
}.

(** The [Error] that carries a Typed Failure. *)
Definition TypedFailure_error (f : TypedFailure) : JsError :=
  Error (ArrService_toString (service f) +:+ " API error: "
           +:+ pretty (status f) +:+ " " +:+ statusText f +:+ " - " +:+ body f).

(** The body text the specification gives a response: its text, the
    empty string when it cannot be read. *)
Definition best_effort_text (response : Response.t) : string :=
  match Response.body response with
  | Fulfilled text => text
  | Rejected _ => ""
  end.

(** The trigger-search operations that take a single id. *)
Inductive TriggerSearch : Type :=
  | SeriesSearch | MoviesSearch | ArtistSearch | AlbumSearch | AuthorSearch.

Definition trigger_call (t : TriggerSearch) (id : Z) : Call :=
  match t with
  | SeriesSearch => CSearchMissing id
  | MoviesSearch => CSearchMovie id
  | ArtistSearch => CSearchMissingAlbums id
  | AlbumSearch => CSearchAlbum id
  | AuthorSearch => CSearchMissingBooks id
  end.

(** The command each of them documents: its name and the field that
    holds the id, bare or wrapped in an array. *)
Definition trigger_command (t : TriggerSearch) (id : Z) : gmap string JsValue :=
  match t with
  | SeriesSearch => {[ "name" := JString "SeriesSearch"; "seriesId" := JNumber id ]}
  | MoviesSearch => {[ "name" := JString "MoviesSearch"; "movieIds" := JArray [JNumber id] ]}
  | ArtistSearch => {[ "name" := JString "ArtistSearch"; "artistId" := JNumber id ]}
  | AlbumSearch => {[ "name" := JString "AlbumSearch"; "albumIds" := JArray [JNumber id] ]}
  | AuthorSearch => {[ "name" := JString "AuthorSearch"; "authorId" := JNumber id ]}
  end.

(** The add operations. *)
Inductive AddOperation : Type := AddSeries | AddMovie | AddArtist | AddAuthor.

Definition add_call (a : AddOperation) (entity : gmap string JsValue) : Call :=
  match a with
  | AddSeries => CAddSeries entity
  | AddMovie => CAddMovie entity
  | AddArtist => CAddArtist entity
  | AddAuthor => CAddAuthor entity
  end.

Definition add_endpoint (a : AddOperation) : string :=
  match a with
  | AddSeries => "/series"
  | AddMovie => "/movie"
  | AddArtist => "/artist"
  | AddAuthor => "/author"
  end.

(** The search-on-add flag of each family. *)
Definition add_flag (a : AddOperation) : string :=
  match a with
  | AddSeries => "searchForMissingEpisodes"
  | AddMovie => "searchForMovie"
  | AddArtist => "searchForMissingAlbums"
  | AddAuthor => "searchForMissingBooks"
  end.

(** The three calendar operations. *)
Inductive CalendarOperation : Type :=
  | ArrCalendar | LidarrCalendar | ReadarrCalendar.

Definition calendar_call (o : CalendarOperation) (start end_ : option string) : Call :=
  match o with
  | ArrCalendar => CGetCalendar start end_
  | LidarrCalendar => CLidarrGetCalendar start end_
  | ReadarrCalendar => CReadarrGetCalendar start end_
  end.

End Spec.

(* ===================================================================== *)
(** * Groups of methods                                                  *)
(* ===================================================================== *)

(** Methods of the source that share one pattern, to state a property
    once for all of them. *)
Module Ops.

(** The lookup methods: [searchSeries], [searchMovies], [searchArtists],
    [searchAuthors]. *)
Inductive Lookup : Type :=
  | LookupSeries | LookupMovies | LookupArtists | LookupAuthors.

Definition lookup_call (o : Lookup) (term : string) : Call :=
  match o with
  | LookupSeries => CSearchSeries term
  | LookupMovies => CSearchMovies term
  | LookupArtists => CSearchArtists term
  | LookupAuthors => CSearchAuthors term
  end.

Definition lookup_path (o : Lookup) : string :=
  match o with
  | LookupSeries => "/series/lookup"
  | LookupMovies => "/movie/lookup"
  | LookupArtists => "/artist/lookup"
  | LookupAuthors => "/author/lookup"
  end.

(** The methods that read one entity by its id: [getSeriesById],
    [getMovieById], [getArtistById], [getAlbumById], [getAuthorById],
    [getBookById]. *)
Inductive ById : Type :=
  | SeriesById | MovieById | ArtistById | AlbumById | AuthorById | BookById.

Definition by_id_call (o : ById) (id : Z) : Call :=
  match o with
  | SeriesById => CGetSeriesById id
  | MovieById => CGetMovieById id
  | ArtistById => CGetArtistById id
  | AlbumById => CGetAlbumById id
  | AuthorById => CGetAuthorById id
  | BookById => CGetBookById id
  end.

(** The listings with an optional owner id: [getAlbums], [getBooks]. *)
Inductive OwnedList : Type := Albums | Books.

Definition owned_call (o : OwnedList) (owner : option Z) : Call :=
  match o with
  | Albums => CGetAlbums owner
  | Books => CGetBooks owner
  end.

Definition owned_path (o : OwnedList) : string :=
  match o with
  | Albums => "/album"
  | Books => "/book"
  end.

Definition owned_key (o : OwnedList) : string :=
  match o with
  | Albums => "artistId"
  | Books => "authorId"
  end.

(** The methods whose init names the method POST. *)
Definition posts (c : Call) : bool :=
  match c with
  | CAddSeries _ | CSearchMissing _ | CSearchEpisode _
  | CAddMovie _ | CSearchMovie _
  | CAddArtist _ | CSearchMissingAlbums _ | CSearchAlbum _
  | CAddAuthor _ | CSearchMissingBooks _ | CSearchBook _
  | CTestAllIndexers | CTestIndexer _ => true
  | _ => false
  end.

(** The methods whose init has a body. *)
Definition carries_body (c : Call) : bool :=
  match c with
  | CTestAllIndexers | CTestIndexer _ => false
  | _ => posts c
  end.

(** Decimal digits and the minus sign: the characters of a formatted
    integer and of an ISO date. *)
Definition is_digit_or_dash (c : ascii) : bool :=
  let n := N_of_ascii c in
  ((48 <=? n) && (n <=? 57))%N || Ascii.eqb c "-".

Fixpoint digits_and_dashes (s : string) : bool :=
  match s with
  | "" => true
  | String c s' => is_digit_or_dash c && digits_and_dashes s'
  end.

(** The lookup term of a call, if it is a lookup, is well-formed: the
    calls for which [encodeURIComponent] does not throw. *)
Definition well_formed_call (c : Call) : bool :=
  match c with
  | CSearchSeries term | CSearchMovies term
  | CSearchArtists term | CSearchAuthors term => is_well_formed term
  | _ => true
  end.

(** The pairs [getCalendar] appends: a date is taken when it is
    truthy. *)
Definition calendar_params (start end_ : option string) : URLSearchParams.t :=
  (if truthy_string start then [("start", default "" start)] else [])
  ++ (if truthy_string end_ then [("end", default "" end_)] else []).

End Ops.

(* ===================================================================== *)
(** * The server around the clients                                      *)
(* ===================================================================== *)

(** The start-up code of the server (which clients exist) and the parts
    of its tool-call handler that use the clients without reshaping
    their results: the [arr_status] case, the [*_get_naming] cases and
    the [catch] around the [switch]. *)
Module Server.

(** What these parts take from the engine beyond [Runtime]: the
    messages of the errors the engine itself throws, and
    [JSON.stringify(v, null, 2)]. *)
Class Engine : Type := {
  SyntaxError_message : string;
  null_read_message : JsValue -> string -> string;
  JSON_stringify_indented : JsValue -> string
}.

Record ServiceConfig : Type := mkServiceConfig {
  name : ArrService;
  displayName : string;
  url : option string;
  apiKey : option string
}.

(** The array [services], read from [process.env]. *)
Definition services (env : string -> option string) : list ServiceConfig :=
  [ {| name := sonarr; displayName := "Sonarr (TV)";
       url := env "SONARR_URL"; apiKey := env "SONARR_API_KEY" |};
    {| name := radarr; displayName := "Radarr (Movies)";
       url := env "RADARR_URL"; apiKey := env "RADARR_API_KEY" |};
    {| name := lidarr; displayName := "Lidarr (Music)";
       url := env "LIDARR_URL"; apiKey := env "LIDARR_API_KEY" |};
    {| name := readarr; displayName := "Readarr (Books)";
       url := env "READARR_URL"; apiKey := env "READARR_API_KEY" |};
    {| name := prowlarr; displayName := "Prowlarr (Indexers)";
       url := env "PROWLARR_URL"; apiKey := env "PROWLARR_API_KEY" |} ].

(** [s.url && s.apiKey], as a condition. *)
Definition is_configured (s : ServiceConfig) : bool :=
  truthy_string (url s) && truthy_string (apiKey s).

Definition configuredServices (env : string -> option string) : list ServiceConfig :=
  List.filter is_configured (services env).

(** The object [clients] after the start-up loop: one client per
    configured service, under the service's name. *)
Definition clients (env : string -> option string) : gmap string ArrClient.t :=
  foldl (fun clients service =>
           let config := mkArrConfig (default "" (url service))
                                     (default "" (apiKey service)) in
           <[ArrService_toString (name service) :=
               family_constructor (name service) config]> clients)
        ∅ (configuredServices env).

(** The name a service goes by in [clients] and in the status report. *)
Definition key (service : ServiceConfig) : string :=
  ArrService_toString (name service).

(** The client the start-up loop builds for a service. *)
Definition client_of (service : ServiceConfig) : ArrClient.t :=
  family_constructor (name service)
    (mkArrConfig (default "" (url service)) (default "" (apiKey service))).

(** The request of [getStatus] on the client of a service. *)
Definition status_call (service : ServiceConfig) : FetchCall :=
  mkFetchCall (ArrClient.request_url (client_of service) "/system/status")
              (ArrClient.request_init (client_of service) RequestInit.empty).

(** The world after the [getStatus] requests of a list of services,
    one after the other. *)
Definition after_status `{Runtime} (asked : list ServiceConfig) (w : World) : World :=
  foldl (fun w service => snd (ArrClient.getStatus (client_of service) w)) w asked.

Section Handler.
Context `{Runtime} `{Engine}.

(** [error instanceof Error ? error.message : String(error)]: every
    rejection reason of the model is an [Error]. *)
Definition message_of (error : JsError) : string :=
  match error with
  | Error message => message
  | TypeError message => message
  | SyntaxError => SyntaxError_message
  end.

(** [v.k] for a property name that no built-in prototype defines
    ([version], [appName]): reading from [null] or [undefined] throws. *)
Definition read (v : JsValue) (k : string) : Settled JsValue :=
  match v with
  | JObject m => Fulfilled (get m k)
  | JUndefined | JNull => Rejected (TypeError (null_read_message v k))
  | _ => Fulfilled JUndefined
  end.

(** [{ content: [{ type: "text", text }] }]. *)
Definition text_content (text : string) : JsValue :=
  JObject {[ "content" :=
    JArray [JObject {[ "type" := JString "text"; "text" := JString text ]}] ]}.

(** [{ content: [{ type: "text", text }], isError: true }]. *)
Definition error_content (text : string) : JsValue :=
  JObject {[ "content" :=
               JArray [JObject {[ "type" := JString "text"; "text" := JString text ]}];
             "isError" := JBool true ]}.

(** The [catch] around the [switch]: a failure of the case becomes a
    result with the message as text and [isError: true]. *)
Definition tool_call (case : Async JsValue) : Async JsValue :=
  try_catch case (fun error =>
    let errorMessage := message_of error in
    ret (error_content ("Error: " +:+ errorMessage))).

(** The first loop of the [arr_status] case. *)
Fixpoint status_loop (clients : gmap string ArrClient.t)
    (configured : list ServiceConfig) (statuses : gmap string JsValue)
  : Async (gmap string JsValue) :=
  match configured with
  | [] => ret statuses
  | service :: configured' =>
      do statuses <-
        try_catch
          (match clients !! ArrService_toString (name service) with
           | Some client =>
               do status <- ArrClient.getStatus client;
               do version <- settle (read status "version");
               do appName <- settle (read status "appName");
               ret (<[ArrService_toString (name service) :=
                        JObject {[ "configured" := JBool true;
                                   "connected" := JBool true;
                                   "version" := version;
                                   "appName" := appName ]}]> statuses)
           | None => ret statuses
           end)
          (fun error =>
             ret (<[ArrService_toString (name service) :=
                      JObject {[ "configured" := JBool true;
                                 "connected" := JBool false;
                                 "error" := JString (message_of error) ]}]> statuses));
      status_loop clients configured' statuses
  end.

(** The entry the first loop records for a service with a client, by
    outcome of its [getStatus]. *)
Definition status_entry (outcome : Settled JsValue) : JsValue :=
  let failed error :=
    JObject {[ "configured" := JBool true;
               "connected" := JBool false;
               "error" := JString (message_of error) ]} in
  match outcome with
  | Fulfilled status =>
      match read status "version", read status "appName" with
      | Fulfilled version, Fulfilled appName =>
          JObject {[ "configured" := JBool true;
                     "connected" := JBool true;
                     "version" := version;
                     "appName" := appName ]}
      | Rejected error, _ => failed error
      | _, Rejected error => failed error
      end
  | Rejected error => failed error
  end.

(** The second loop: the services without an entry so far. *)
Definition add_unconfigured (all : list ServiceConfig)
    (statuses : gmap string JsValue) : gmap string JsValue :=
  foldl (fun statuses service =>
           match statuses !! ArrService_toString (name service) with
           | Some _ => statuses
           | None =>
               <[ArrService_toString (name service) :=
                   JObject {[ "configured" := JBool false ]}]> statuses
           end)
        statuses all.

(** The case [arr_status]. *)
Definition arr_status (env : string -> option string) : Async JsValue :=
  do statuses <- status_loop (clients env) (configuredServices env) ∅;
  let statuses := add_unconfigured (services env) statuses in
  ret (text_content (JSON_stringify_indented (JObject statuses))).

(** [name.split('_')[0]]. *)
Definition first_segment (name : string) : string :=
  hd "" (split_on "_" name).

(** The tool names of the naming case. *)
Definition naming_tools : list string :=
  ["sonarr_get_naming"; "radarr_get_naming"; "lidarr_get_naming";
   "readarr_get_naming"].

(** The case of the four [*_get_naming] tools. *)
Definition get_naming (env : string -> option string) (name : string)
  : Async JsValue :=
  let serviceName := first_segment name in
  match clients env !! serviceName with
  | None => throw (Error (serviceName +:+ " not configured"))
  | Some client =>
      do naming <- ArrClient.getNamingConfig client;
      ret (text_content (JSON_stringify_indented naming))
  end.

End Handler.

(** An engine for running the handler: V8's message for an empty JSON
    text, a fixed message for reads from null, and the compact
    serializer in place of the indented one. *)
Definition test_engine : Engine := {|
  SyntaxError_message := "Unexpected end of JSON input";
  null_read_message := fun _ k => "Cannot read properties of null (reading '" +:+ k +:+ "')";
  JSON_stringify_indented := TestRuntime.stringify
|}.

(** An environment with Sonarr alone configured. *)
Definition sonarr_only (variable : string) : option string :=
  if String.eqb variable "SONARR_URL" then Some "http://localhost:8989/"
  else if String.eqb variable "SONARR_API_KEY" then Some "abc123"
  else None.

(** An environment with Sonarr and Radarr configured. *)
Definition sonarr_and_radarr (variable : string) : option string :=
  if String.eqb variable "SONARR_URL" then Some "http://localhost:8989/"
  else if String.eqb variable "SONARR_API_KEY" then Some "abc123"
  else if String.eqb variable "RADARR_URL" then Some "http://localhost:7878"
  else if String.eqb variable "RADARR_API_KEY" then Some "def456"
  else None.

End Server.

(* ===================================================================== *)
(** * A remote that may never answer                                     *)
(* ===================================================================== *)

(** The client has no timeout: when the remote never answers, the
    promise of [fetch] never settles and the [await] on it never
    resumes.  [Js] leaves this out (there every exchange settles);
    here the executor, [getStatus] and [testConnection] are embedded
    once more with it. *)
Module Pending.
Section Pending.
Context `{Runtime}.

(** The exchanges the remote never answers, by request and state of
    the remote. *)
Variable hangs : FetchCall -> NetState -> bool.

(** An [async] function body that settles, or never does: [None]. *)
Definition Async (A : Type) : Type := World -> option (Settled A * World).

Definition ret {A} (a : A) : Async A := fun w => Some (Fulfilled a, w).

Definition throw {A} (e : JsError) : Async A := fun w => Some (Rejected e, w).

(** [await m] followed by [k]: when [m] never settles, [k] never runs. *)
Definition bind {A B} (m : Async A) (k : A -> Async B) : Async B :=
  fun w =>
    match m w with
    | Some (Fulfilled a, w') => k a w'
    | Some (Rejected e, w') => Some (Rejected e, w')
    | None => None
    end.

(** [try { m } catch { h }]: when [m] never settles, neither the rest
    of the block nor the handler runs. *)
Definition try_catch {A} (m : Async A) (h : JsError -> Async A) : Async A :=
  fun w =>
    match m w with
    | Some (Fulfilled a, w') => Some (Fulfilled a, w')
    | Some (Rejected e, w') => h e w'
    | None => None
    end.

Definition settle {A} (s : Settled A) : Async A := fun w => Some (s, w).

(** [fetch(url, init)]. *)
Definition fetch (url : string) (init : RequestInit.t) : Async Response.t :=
  fun w =>
    if hangs (mkFetchCall url init) (net w) then None
    else Some (Js.fetch url init w).

Definition Response_text (r : Response.t) : Async string :=
  settle (Response.body r).

Definition Response_json (r : Response.t) : Async JsValue :=
  bind (Response_text r) (fun text =>
    match JSON_parse text with
    | Some v => ret v
    | None => throw SyntaxError
    end).

Definition request (this : ArrClient.t) (endpoint : string)
    (options : RequestInit.t) : Async JsValue :=
  let url := ArrClient.request_url this endpoint in
  let init := ArrClient.request_init this options in
  bind (fetch url init) (fun response =>
    if negb (Response.ok response) then
      bind (Response_text response) (fun text =>
        throw (Error (ArrClient.error_message this response text)))
    else
      Response_json response).

Definition getStatus (this : ArrClient.t) : Async JsValue :=
  request this "/system/status" RequestInit.empty.

Definition testConnection (this : ArrClient.t) : Async JsValue :=
  try_catch
    (bind (getStatus this) (fun status => ret (JBool true)))
    (fun _ => ret (JBool false)).

End Pending.
End Pending.

(* ===================================================================== *)
(** * The request executor                                               *)
(* ===================================================================== *)

Section Executor.
Context `{Runtime}.
Implicit Types (this : ArrClient.t) (w : World).

(** One call of [request] is one [fetch]: the outcome is decided by the
    remote's answer, and the log grows by exactly that exchange. *)
Lemma request_run this endpoint options w :
  let call := mkFetchCall (ArrClient.request_url this endpoint)
                          (ArrClient.request_init this options) in
  ArrClient.request this endpoint options w =
    (request_outcome this (fst (net_fetch call (net w))),
     {| net := snd (net_fetch call (net w)); sent := sent w ++ [call] |}).
Proof.
  unfold ArrClient.request, bind, fetch, Response_json, Response_text, settle.
  cbn zeta. unfold bind.
  destruct (net_fetch _ (net w)) as [[response | e] n]; cbn; [| reflexivity].
  destruct (Response.ok response); cbn;
    destruct (Response.body response) as [text | e]; cbn; try reflexivity.
  destruct (JSON_parse text); reflexivity.
Qed.

(** The log after a call of [request]. *)
Lemma request_sent this endpoint options w :
  sent (snd (ArrClient.request this endpoint options w)) =
    sent w ++ [mkFetchCall (ArrClient.request_url this endpoint)
                           (ArrClient.request_init this options)].
Proof. rewrite request_run. reflexivity. Qed.

(** ** Failures (C1) *)

(** C1, as amended.  For a response whose status is outside 200-299,
    [request] reads the body as text and fails with an [Error] whose
    message is "<service> API error: <status> <statusText> - <text>",
    built from the configured service name, the response's numeric
    status, its status text and its body text (the empty string for an
    empty body); when the body cannot be read, the failure of the read
    is what the caller receives.  Either way exactly one exchange has
    taken place: nothing is retried. *)
Theorem request_not_ok_fails this endpoint options w response n :
  let call := mkFetchCall (ArrClient.request_url this endpoint)
                          (ArrClient.request_init this options) in
  net_fetch call (net w) = (Fulfilled response, n) ->
  Response.ok response = false ->
  ArrClient.request this endpoint options w =
    (match Response.body response with
     | Fulfilled text =>
         Rejected (Spec.TypedFailure_error
                     {| Spec.service := ArrClient.serviceName this;
                        Spec.status := Response.status response;
                        Spec.statusText := Response.statusText response;
                        Spec.body := text |})
     | Rejected e => Rejected e
     end,
     {| net := n; sent := sent w ++ [call] |}).
Proof.
  intros call Hfetch Hok. rewrite request_run. fold call. rewrite Hfetch. cbn.
  rewrite Hok. destruct (Response.body response); reflexivity.
Qed.

(** ** Success (C3) *)

(** C3.  For a response whose status is in 200-299, [request] returns
    what [JSON.parse] makes of the body text, as it is: no validation,
    no reshaping.  A text that is not JSON surfaces as the parse
    failure.  In particular a value [j] that the remote serialized into
    the body comes back structurally equal, whenever the codec itself
    round-trips [j]. *)
Theorem request_ok_returns_parsed_body this endpoint options w response n text :
  let call := mkFetchCall (ArrClient.request_url this endpoint)
                          (ArrClient.request_init this options) in
  net_fetch call (net w) = (Fulfilled response, n) ->
  Response.ok response = true ->
  Response.body response = Fulfilled text ->
  ArrClient.request this endpoint options w =
    (match JSON_parse text with
     | Some v => Fulfilled v
     | None => Rejected SyntaxError
     end,
     {| net := n; sent := sent w ++ [call] |})
  /\ (forall j : JsValue,
        text = JSON_stringify j ->
        JSON_parse (JSON_stringify j) = Some j ->
        fst (ArrClient.request this endpoint options w) = Fulfilled j).
Proof.
  intros call Hfetch Hok Hbody.
  assert (Hrun : ArrClient.request this endpoint options w =
                 (match JSON_parse text with
                  | Some v => Fulfilled v
                  | None => Rejected SyntaxError
                  end, {| net := n; sent := sent w ++ [call] |})).
  { rewrite request_run. fold call. rewrite Hfetch. cbn.
    rewrite Hbody, Hok. reflexivity. }
  split; [exact Hrun |].
  intros j -> Hround. rewrite Hrun. cbn. rewrite Hround. reflexivity.
Qed.

(** ** Headers (C4) *)

(** The headers of a request, by name. *)
Lemma request_headers_lookup this options (k : string) :
  ArrClient.request_headers this options !! k =
    match default ∅ (RequestInit.headers options) !! k with
    | Some v => Some v
    | None =>
        if decide (k = "X-Api-Key") then Some (apiKey (ArrClient.config this))
        else if decide (k = "Content-Type") then Some "application/json"
        else None
    end.
Proof.
  unfold ArrClient.request_headers, spread.
  rewrite lookup_union.
  destruct (default ∅ (RequestInit.headers options) !! k) as [v |] eqn:Hk.
  - destruct (<["X-Api-Key" := _]> _ !! k); reflexivity.
  - rewrite (left_id_L None _).
    rewrite lookup_insert. destruct (decide ("X-Api-Key" = k)) as [<- | Hne].
    + rewrite decide_True by reflexivity. reflexivity.
    + rewrite decide_False by congruence.
      rewrite lookup_insert. destruct (decide ("Content-Type" = k)) as [<- | Hne'].
      * rewrite decide_True by reflexivity. reflexivity.
      * rewrite decide_False by congruence. apply lookup_empty.
Qed.


End Executor.

(* ===================================================================== *)
(** * The request URL (C2)                                               *)
(* ===================================================================== *)

Section BaseUrl.

Lemma append_cons (x : ascii) (a b : string) :
  String x a +:+ b = String x (a +:+ b).
Proof. reflexivity. Qed.

Lemma append_nil (b : string) : "" +:+ b = b.
Proof. reflexivity. Qed.

Lemma append_assoc (a b c : string) : (a +:+ b) +:+ c = a +:+ (b +:+ c).
Proof.
  induction a as [| x a IH]; [reflexivity |].
  rewrite !append_cons. f_equal. exact IH.
Qed.

(** A final slash is dropped. *)
Lemma replace_trailing_slash_snoc (v : string) :
  replace_trailing_slash (v +:+ "/") = v.
Proof.
  induction v as [| c v IH]; [reflexivity |].
  rewrite append_cons. destruct v as [| d v]; [reflexivity |].
  rewrite append_cons in *. cbn [replace_trailing_slash] in *.
  f_equal. exact IH.
Qed.

(** Without a final slash nothing changes. *)
Lemma replace_trailing_slash_id (u : string) :
  (forall v, u <> v +:+ "/") -> replace_trailing_slash u = u.
Proof.
  induction u as [| c u IH]; intros Hno; [reflexivity |].
  destruct u as [| d u].
  - cbn. destruct (Ascii.eqb_spec c "/") as [-> | _]; [| reflexivity].
    exfalso. by apply (Hno "").
  - cbn [replace_trailing_slash] in *. f_equal. apply IH.
    intros v Hv. apply (Hno (String c v)). rewrite append_cons. by rewrite Hv.
Qed.

(** The result is the input, or the input is the result and one slash. *)
Lemma replace_trailing_slash_cases (u : string) :
  replace_trailing_slash u = u \/ replace_trailing_slash u +:+ "/" = u.
Proof.
  induction u as [| c u IH]; [by left |].
  destruct u as [| d u].
  - cbn. destruct (Ascii.eqb_spec c "/") as [-> | _]; [by right | by left].
  - cbn [replace_trailing_slash] in *.
    destruct IH as [-> | Heq]; [by left | right].
    rewrite append_cons. by rewrite Heq.
Qed.

(** A string that ends in a slash is not what is left of it. *)
Lemma replace_trailing_slash_snoc_ne (v : string) :
  replace_trailing_slash (v +:+ "/") <> v +:+ "/".
Proof.
  rewrite replace_trailing_slash_snoc.
  induction v as [| c v IH]; [discriminate |].
  rewrite append_cons. intros Heq. injection Heq as Heq. by apply IH.
Qed.

Context `{Runtime}.

(** C2.  A client built from a configuration (by the base class under
    any service name, or by the class of a family) sends every request
    to the configured base URL with its final slash dropped, followed by
    [/api/], the version segment and the endpoint path.  The slash is
    dropped when the client is built and at most one is dropped: a base
    URL that ends in a slash loses exactly that one, any other is kept
    as it is.  So a base URL that does not end in two slashes meets
    [/api/] with a single slash. *)
Theorem request_url_is_base_api_version_path
    (s : ArrService) (cfg : ArrConfig) (endpoint : string)
    (options : RequestInit.t) (w : World) :
  let base := replace_trailing_slash (url cfg) in
  (forall this : ArrClient.t,
     this = ArrClient.constructor s cfg \/ this = family_constructor s cfg ->
     url (ArrClient.config this) = base
     /\ exists init : RequestInit.t,
          sent (snd (ArrClient.request this endpoint options w)) =
            sent w ++ [mkFetchCall
                         (base +:+ "/api/" +:+ ArrClient.apiVersion this +:+ endpoint)
                         init])
  /\ (forall v, url cfg = v +:+ "/" -> base = v)
  /\ ((forall v, url cfg <> v +:+ "/") -> base = url cfg)
  /\ ((forall v, url cfg <> v +:+ "//") -> forall v, base <> v +:+ "/").
Proof.
  intros base. split; [| split; [| split]].
  - intros this Hthis.
    assert (Hurl : url (ArrClient.config this) = base)
      by (destruct Hthis as [-> | ->]; [reflexivity | by destruct s]).
    split; [exact Hurl |].
    exists (ArrClient.request_init this options).
    rewrite request_sent. unfold ArrClient.request_url. by rewrite Hurl.
  - intros v Hv. unfold base. rewrite Hv. apply replace_trailing_slash_snoc.
  - apply replace_trailing_slash_id.
  - intros Hno v Hbase. unfold base in Hbase.
    destruct (replace_trailing_slash_cases (url cfg)) as [Hsame | Hcut].
    + rewrite Hsame in Hbase. rewrite Hbase in Hsame.
      exact (replace_trailing_slash_snoc_ne v Hsame).
    + apply (Hno v). rewrite <- Hcut, Hbase. apply append_assoc.
Qed.

End BaseUrl.

(* ===================================================================== *)
(** * The methods                                                        *)
(* ===================================================================== *)

Section Operations.
Context `{Runtime}.
Implicit Types (this : ArrClient.t) (w : World) (c : Call).

(** Every method but [testConnection] is one call of [request], without
    header overrides, and returns what that call returns. *)
Lemma invoke_request this c :
  c <> CTestConnection ->
  exists (endpoint : string) (options : RequestInit.t),
    RequestInit.headers options = None
    /\ invoke this c = ArrClient.request this endpoint options.
Proof.
  intros Hc. destruct c; try contradiction;
    (eexists _, _; split; [| reflexivity]; reflexivity).
Qed.

(** [testConnection] is [getStatus] with the outcome turned into a
    boolean; the exchange is the same. *)
Lemma testConnection_run this w :
  ArrClient.testConnection this w =
    (Fulfilled (JBool (is_fulfilled (fst (ArrClient.getStatus this w)))),
     snd (ArrClient.getStatus this w)).
Proof.
  unfold ArrClient.testConnection, try_catch, bind, ret.
  destruct (ArrClient.getStatus this w) as [[v | e] w']; reflexivity.
Qed.

(** Every method performs exactly one exchange, under the client's URL
    prefix and with the default headers, and its result is a function
    of the remote's answer alone. *)
Lemma invoke_run this c :
  exists (endpoint : string) (options : RequestInit.t),
    RequestInit.headers options = None
    /\ forall w,
         let call := mkFetchCall (ArrClient.request_url this endpoint)
                                 (ArrClient.request_init this options) in
         invoke this c w =
           (call_outcome this c (fst (net_fetch call (net w))),
            {| net := snd (net_fetch call (net w)); sent := sent w ++ [call] |}).
Proof.
  assert (c = CTestConnection \/ c <> CTestConnection) as [-> | Hc]
    by (destruct c; (by left) || (by right)).
  - exists "/system/status", RequestInit.empty. split; [reflexivity |].
    intros w call. cbn [invoke call_outcome].
    rewrite testConnection_run. unfold ArrClient.getStatus.
    rewrite request_run. reflexivity.
  - destruct (invoke_request this c Hc) as (endpoint & options & Hh & Heq).
    exists endpoint, options. split; [exact Hh |].
    intros w call. rewrite Heq, request_run.
    destruct c; try reflexivity. contradiction.
Qed.

(** ** [testConnection] (C9) *)

(** Where the remote answers, the executor does what it does in [Js]. *)
Lemma pending_request_answered (hangs : FetchCall -> NetState -> bool)
    this endpoint options w :
  hangs (mkFetchCall (ArrClient.request_url this endpoint)
                     (ArrClient.request_init this options)) (net w) = false ->
  Pending.request hangs this endpoint options w =
    Some (ArrClient.request this endpoint options w).
Proof.
  intros Hanswer.
  unfold Pending.request, Pending.bind, Pending.fetch. cbn zeta. rewrite Hanswer.
  unfold ArrClient.request, bind. cbn zeta.
  destruct (fetch _ _ w) as [[response | e] w1]; [| reflexivity].
  destruct (Response.ok response); cbn [negb].
  - unfold Pending.Response_json, Response_json, Pending.bind, bind,
      Pending.Response_text, Response_text, Pending.settle, settle.
    destruct (Response.body response) as [text | e]; [| reflexivity].
    destruct (JSON_parse text); reflexivity.
  - unfold Pending.Response_text, Response_text, Pending.settle, settle, bind.
    destruct (Response.body response); reflexivity.
Qed.

(** Where the remote never answers, the executor never settles. *)
Lemma pending_request_hung (hangs : FetchCall -> NetState -> bool)
    this endpoint options w :
  hangs (mkFetchCall (ArrClient.request_url this endpoint)
                     (ArrClient.request_init this options)) (net w) = true ->
  Pending.request hangs this endpoint options w = None.
Proof.
  intros Hhung.
  unfold Pending.request, Pending.bind, Pending.fetch. cbn zeta.
  by rewrite Hhung.
Qed.

(** C9, as amended.  [testConnection] sends the GET of [getStatus] to
    [/system/status] and never propagates a failure.  When the remote
    never answers that request, [testConnection] never returns: there
    is no timeout.  When the remote settles the exchange, it returns a
    boolean: [true] exactly when the answer has a status in 200-299 and
    a readable body that is valid JSON, which is when [getStatus]
    succeeds; [false] on a transport error, a status outside 200-299,
    an unreadable body or a body that is not JSON, with nothing of the
    failure kept.  Exactly that one exchange has then taken place. *)
Theorem testConnection_answers_by_remote
    (hangs : FetchCall -> NetState -> bool) this w :
  let call := mkFetchCall (ArrClient.request_url this "/system/status")
                          (ArrClient.request_init this RequestInit.empty) in
  let connected :=
    match fst (net_fetch call (net w)) with
    | Fulfilled response =>
        Response.ok response
        && match Response.body response with
           | Fulfilled text =>
               match JSON_parse text with Some _ => true | None => false end
           | Rejected _ => false
           end
    | Rejected _ => false
    end in
  Pending.testConnection hangs this w =
    (if hangs call (net w) then None
     else Some (Fulfilled (JBool connected),
                {| net := snd (net_fetch call (net w)); sent := sent w ++ [call] |}))
  /\ (hangs call (net w) = false ->
      Pending.testConnection hangs this w = Some (ArrClient.testConnection this w)
      /\ exists outcome w',
           Pending.getStatus hangs this w = Some (outcome, w')
           /\ connected = is_fulfilled outcome).
Proof.
  intros call connected.
  assert (Hstatus : hangs call (net w) = false ->
            Pending.getStatus hangs this w = Some (ArrClient.getStatus this w))
    by (intros Hanswer; by apply pending_request_answered).
  assert (Hanswered : hangs call (net w) = false ->
            Pending.testConnection hangs this w =
              Some (ArrClient.testConnection this w)).
  { intros Hanswer.
    unfold Pending.testConnection, Pending.try_catch, Pending.bind.
    rewrite Hstatus by exact Hanswer.
    unfold ArrClient.testConnection, try_catch, bind.
    destruct (ArrClient.getStatus this w) as [[status | e] w1]; reflexivity. }
  assert (Hconnected : connected = is_fulfilled (fst (ArrClient.getStatus this w))).
  { unfold ArrClient.getStatus. rewrite request_run. fold call. cbn [fst].
    unfold connected.
    destruct (fst (net_fetch call (net w))) as [response | e]; [| reflexivity].
    cbn. destruct (Response.body response) as [text | e].
    - destruct (Response.ok response); [| reflexivity].
      destruct (JSON_parse text); reflexivity.
    - by rewrite andb_false_r. }
  split.
  - destruct (hangs call (net w)) eqn:Hhangs.
    + unfold Pending.testConnection, Pending.try_catch, Pending.bind,
        Pending.getStatus.
      by rewrite pending_request_hung.
    + rewrite Hanswered by reflexivity. f_equal.
      rewrite testConnection_run, <- Hconnected. f_equal.
      unfold ArrClient.getStatus. rewrite request_run. reflexivity.
  - intros Hanswer. split; [by apply Hanswered |].
    exists (fst (ArrClient.getStatus this w)), (snd (ArrClient.getStatus this w)).
    split; [| exact Hconnected].
    rewrite Hstatus by exact Hanswer. by destruct (ArrClient.getStatus this w).
Qed.

(** ** Idempotence (C8) *)

(** C8.  Two successive calls of the same method on the same client
    return identical results whenever the remote answers identically
    both times.  The client keeps nothing between calls: each call
    performs its own exchange, and both send the same request. *)
Theorem successive_calls_agree this c w :
  let first := invoke this c w in
  let second := invoke this c (snd first) in
  (forall call, fst (net_fetch call (net w)) = fst (net_fetch call (net (snd first)))) ->
  fst first = fst second
  /\ exists call, sent (snd second) = sent w ++ [call; call].
Proof.
  destruct (invoke_run this c) as (endpoint & options & _ & Hrun).
  cbn zeta in Hrun. intros first second Hsame.
  unfold second, first in *. clear first second.
  rewrite (Hrun w) in *. cbn [fst snd net sent] in *.
  rewrite Hrun. cbn [fst snd net sent]. split.
  - f_equal. apply Hsame.
  - eexists. rewrite <- app_assoc. reflexivity.
Qed.

(** ** Version prefix and authentication (C5) *)

Lemma family_constructor_config (s : ArrService) (cfg : ArrConfig) :
  ArrClient.config (family_constructor s cfg) =
    {| url := replace_trailing_slash (url cfg); apiKey := apiKey cfg |}.
Proof. destruct s; reflexivity. Qed.

(** What a sequence of calls adds to the log: one exchange per call,
    each under the client's prefix and with the default headers. *)
Lemma run_calls_sent this (cs : list Call) w :
  exists calls : list FetchCall,
    sent (snd (run_calls this cs w)) = sent w ++ calls
    /\ length calls = length cs
    /\ Forall (fun call =>
         exists endpoint options,
           RequestInit.headers options = None
           /\ call = mkFetchCall (ArrClient.request_url this endpoint)
                                 (ArrClient.request_init this options)) calls.
Proof.
  revert w. induction cs as [| c cs IH]; intros w.
  - exists []. cbn. rewrite app_nil_r. by repeat split.
  - cbn [run_calls].
    destruct (invoke_run this c) as (endpoint & options & Hh & Hrun).
    cbn zeta in Hrun. rewrite Hrun.
    match goal with
    | |- context [run_calls this cs ?w1] =>
        destruct (IH w1) as (calls & Hsent & Hlen & Hall);
        destruct (run_calls this cs w1) as [rs w2]
    end.
    cbn [fst snd sent] in *.
    eexists (_ :: calls). split; [| split].
    + rewrite Hsent. rewrite <- app_assoc. reflexivity.
    + cbn. by rewrite Hlen.
    + constructor; [| exact Hall]. eauto.
Qed.

(** C5.  The client of a family has the version segment of its family,
    [v3] for Sonarr and Radarr and [v1] for Lidarr, Readarr and
    Prowlarr, from its construction on; and whatever methods are called
    on it, in whatever order and number, every request it sends goes to
    the configured base URL under that same version prefix and carries
    the configured key in the [X-Api-Key] header. *)
Theorem client_requests_share_version_and_key
    (s : ArrService) (cfg : ArrConfig) (cs : list Call) w :
  let this := family_constructor s cfg in
  let version := match s with
                 | sonarr | radarr => "v3"
                 | lidarr | readarr | prowlarr => "v1"
                 end in
  ArrClient.apiVersion this = version
  /\ exists calls : list FetchCall,
       sent (snd (run_calls this cs w)) = sent w ++ calls
       /\ length calls = length cs
       /\ Forall (fun call =>
            (exists path,
               fetch_url call =
                 replace_trailing_slash (url cfg) +:+ "/api/" +:+ version +:+ path)
            /\ exists headers : gmap string string,
                 RequestInit.headers (fetch_init call) = Some headers
                 /\ headers !! "X-Api-Key" = Some (apiKey cfg)
                 /\ headers !! "Content-Type" = Some "application/json") calls.
Proof.
  intros this version.
  assert (Hv : ArrClient.apiVersion this = version) by (by destruct s).
  split; [exact Hv |].
  destruct (run_calls_sent this cs w) as (calls & Hsent & Hlen & Hall).
  exists calls. split; [exact Hsent |]. split; [exact Hlen |].
  eapply Forall_impl; [exact Hall |].
  intros call (endpoint & options & Hh & ->). cbn. split.
  - exists endpoint. unfold ArrClient.request_url.
    rewrite Hv. unfold this. by rewrite family_constructor_config.
  - eexists. split; [reflexivity |].
    rewrite !request_headers_lookup, Hh. cbn.
    unfold this. rewrite family_constructor_config. by rewrite lookup_empty.
Qed.

(** ** Trigger-search operations (C7) *)

(** C7.  A trigger-search operation given one id sends a POST to
    [/command] whose body is the serialization of the object holding
    exactly the command name of its entity type and the id, bare or in
    a one-element array, under the documented field; and when the
    remote answers with a status in 200-299, the caller receives the
    parsed body as it is, so the command identifier the remote assigned
    is the one the caller sees.  Nothing more is awaited: the result is
    that of this single exchange. *)
Theorem trigger_search_posts_command (t : Spec.TriggerSearch) (id : Z) this w :
  let call :=
    mkFetchCall (ArrClient.request_url this "/command")
      {| RequestInit.method := Some "POST";
         RequestInit.headers := Some (ArrClient.request_headers this RequestInit.empty);
         RequestInit.body := Some (JSON_stringify (JObject (Spec.trigger_command t id))) |} in
  let result := invoke this (Spec.trigger_call t id) w in
  sent (snd result) = sent w ++ [call]
  /\ RequestInit.effective_method (fetch_init call) = "POST"
  /\ forall response text v,
       fst (net_fetch call (net w)) = Fulfilled response ->
       Response.ok response = true ->
       Response.body response = Fulfilled text ->
       JSON_parse text = Some v ->
       fst result = Fulfilled v.
Proof.
  intros call result.
  assert (Hrun : result =
            (request_outcome this (fst (net_fetch call (net w))),
             {| net := snd (net_fetch call (net w)); sent := sent w ++ [call] |})).
  { unfold result. destruct t; cbn [Spec.trigger_call invoke];
      unfold SonarrClient.searchMissing, RadarrClient.searchMovie,
        LidarrClient.searchMissingAlbums, LidarrClient.searchAlbum,
        ReadarrClient.searchMissingBooks;
      rewrite request_run; reflexivity. }
  rewrite Hrun. split; [reflexivity |]. split; [reflexivity |].
  intros response text v Hfetch Hok Hbody Hparse. cbn [fst].
  rewrite Hfetch. cbn. by rewrite Hbody, Hok, Hparse.
Qed.

(** ** Add operations (C10) *)

(** C10.  An add operation sends a POST to the collection of its
    entity whose body is the serialization of the caller's object,
    changed as follows: [addOptions] is the object holding just the
    family's search-on-add flag, set to true, whatever the caller put
    there; [monitored] is true when the caller left it out (or gave
    null or undefined), and the caller's value otherwise; every other
    property, apart from [seasonFolder], is the caller's. *)
Theorem add_augments_payload (a : Spec.AddOperation)
    (entity : gmap string JsValue) this w :
  exists payload : gmap string JsValue,
    sent (snd (invoke this (Spec.add_call a entity) w)) =
      sent w ++ [mkFetchCall (ArrClient.request_url this (Spec.add_endpoint a))
                   {| RequestInit.method := Some "POST";
                      RequestInit.headers :=
                        Some (ArrClient.request_headers this RequestInit.empty);
                      RequestInit.body := Some (JSON_stringify (JObject payload)) |}]
    /\ payload !! "addOptions" = Some (JObject {[ Spec.add_flag a := JBool true ]})
    /\ (entity !! "monitored" = None -> payload !! "monitored" = Some (JBool true))
    /\ payload !! "monitored" = Some (nullish (get entity "monitored") (JBool true))
    /\ (forall k : string,
          k <> "addOptions" -> k <> "monitored" -> k <> "seasonFolder" ->
          payload !! k = entity !! k).
Proof.
  destruct a; cbn [Spec.add_call invoke Spec.add_endpoint Spec.add_flag];
    unfold SonarrClient.addSeries, RadarrClient.addMovie,
      LidarrClient.addArtist, ReadarrClient.addAuthor;
    rewrite request_sent;
    unfold SonarrClient.addSeries_payload, RadarrClient.addMovie_payload,
      LidarrClient.addArtist_payload, ReadarrClient.addAuthor_payload;
    (eexists; split; [reflexivity |]);
    (split; [by rewrite lookup_insert_eq |]);
    (split; [intros Hm; unfold get; rewrite Hm; cbn; by simplify_map_eq |]);
    (split; [by simplify_map_eq |]);
    intros k Ha Hm Hs; by simplify_map_eq.
Qed.

End Operations.

(* ===================================================================== *)
(** * Calendar operations (C6)                                           *)
(* ===================================================================== *)

Section QueryString.

Lemma mem_ascii_append (c : ascii) (a b : string) :
  mem_ascii c (a +:+ b) = mem_ascii c a || mem_ascii c b.
Proof.
  induction a as [| x a IH]; [reflexivity |].
  rewrite append_cons. cbn [mem_ascii]. rewrite IH. apply orb_assoc.
Qed.

(** An encoded byte decodes to the byte. *)
Lemma decode_urlencoded_byte (c : ascii) (rest : string) :
  percent_decode (plus_to_space (urlencoded_byte c +:+ rest)) =
    String c (percent_decode (plus_to_space rest)).
Proof. destruct c as [[] [] [] [] [] [] [] []]; reflexivity. Qed.

(** An encoded byte contains neither separator. *)
Lemma urlencoded_byte_no_separator (c : ascii) :
  mem_ascii "&" (urlencoded_byte c) = false
  /\ mem_ascii "=" (urlencoded_byte c) = false.
Proof. destruct c as [[] [] [] [] [] [] [] []]; split; reflexivity. Qed.

Lemma decode_urlencoded (s : string) :
  percent_decode (plus_to_space (urlencoded_serialize s)) = s.
Proof.
  induction s as [| c s IH]; [reflexivity |].
  cbn [urlencoded_serialize]. rewrite decode_urlencoded_byte. by rewrite IH.
Qed.

Lemma urlencoded_no_separator (s : string) :
  mem_ascii "&" (urlencoded_serialize s) = false
  /\ mem_ascii "=" (urlencoded_serialize s) = false.
Proof.
  induction s as [| c s [IHa IHe]]; [by split |].
  cbn [urlencoded_serialize]. rewrite !mem_ascii_append, IHa, IHe.
  destruct (urlencoded_byte_no_separator c) as [-> ->]. by split.
Qed.

Lemma cut_at_first (sep : ascii) (a b : string) :
  mem_ascii sep a = false ->
  cut_at sep (a +:+ String sep b) = Some (a, b).
Proof.
  induction a as [| x a IH]; intros Hfree.
  - rewrite append_nil. cbn. by rewrite Ascii.eqb_refl.
  - cbn [mem_ascii] in Hfree. apply orb_false_elim in Hfree as [Hx Ha].
    rewrite append_cons. cbn [cut_at].
    rewrite Ascii.eqb_sym, Hx. by rewrite IH.
Qed.

Lemma split_on_free (sep : ascii) (a : string) :
  mem_ascii sep a = false -> split_on sep a = [a].
Proof.
  induction a as [| x a IH]; intros Hfree; [reflexivity |].
  cbn [mem_ascii] in Hfree. apply orb_false_elim in Hfree as [Hx Ha].
  cbn [split_on]. rewrite Ascii.eqb_sym, Hx. by rewrite IH.
Qed.

Lemma split_on_first (sep : ascii) (a b : string) :
  mem_ascii sep a = false ->
  split_on sep (a +:+ String sep b) = a :: split_on sep b.
Proof.
  induction a as [| x a IH]; intros Hfree.
  - rewrite append_nil. cbn [split_on]. by rewrite Ascii.eqb_refl.
  - cbn [mem_ascii] in Hfree. apply orb_false_elim in Hfree as [Hx Ha].
    rewrite append_cons. cbn [split_on].
    rewrite Ascii.eqb_sym, Hx. by rewrite IH.
Qed.

Lemma serialize_pair_no_ampersand (p : string * string) :
  mem_ascii "&" (URLSearchParams.serialize_pair p) = false.
Proof.
  unfold URLSearchParams.serialize_pair. rewrite !mem_ascii_append.
  destruct (urlencoded_no_separator (fst p)) as [-> _].
  destruct (urlencoded_no_separator (snd p)) as [-> _]. reflexivity.
Qed.

Lemma serialize_pair_truthy (p : string * string) :
  truthy (URLSearchParams.serialize_pair p) = true.
Proof.
  unfold URLSearchParams.serialize_pair.
  destruct (urlencoded_serialize (fst p)); reflexivity.
Qed.

Lemma parse_serialize_pair (p : string * string) :
  URLSearchParams.parse_pair (URLSearchParams.serialize_pair p) = p.
Proof.
  destruct p as [k v].
  unfold URLSearchParams.parse_pair, URLSearchParams.serialize_pair. cbn [fst snd].
  change ("=" +:+ urlencoded_serialize v) with (String "=" (urlencoded_serialize v)).
  rewrite cut_at_first by apply urlencoded_no_separator.
  by rewrite !decode_urlencoded.
Qed.

(** The receiving end reads back the pairs that were serialized, in
    order. *)
Lemma parse_toString (params : URLSearchParams.t) :
  URLSearchParams.parse (URLSearchParams.toString params) = params.
Proof.
  unfold URLSearchParams.parse, URLSearchParams.toString.
  induction params as [| p params IH]; [reflexivity |].
  destruct params as [| q params].
  - cbn [map String.concat].
    rewrite split_on_free by apply serialize_pair_no_ampersand.
    cbn [List.filter map]. rewrite serialize_pair_truthy. cbn [map].
    by rewrite parse_serialize_pair.
  - cbn [map String.concat] in *.
    match goal with
    | |- context [?a +:+ "&" +:+ ?b] =>
        change (a +:+ "&" +:+ b) with (a +:+ String "&" b)
    end.
    rewrite split_on_first by apply serialize_pair_no_ampersand.
    cbn [List.filter]. rewrite serialize_pair_truthy. cbn [map].
    rewrite parse_serialize_pair. f_equal. exact IH.
Qed.

Lemma truthy_string_Some (s : string) : s <> "" -> truthy_string (Some s) = true.
Proof. destruct s; [contradiction | reflexivity]. Qed.

Context `{Runtime}.

(** The path of a calendar request. *)
Lemma calendar_sent (o : Spec.CalendarOperation) (start end_ : option string)
    (this : ArrClient.t) (w : World) :
  let params :=
    (if truthy_string start then [("start", default "" start)] else [])
    ++ (if truthy_string end_ then [("end", default "" end_)] else []) in
  let query :=
    if truthy (URLSearchParams.toString params)
    then "?" +:+ URLSearchParams.toString params else "" in
  sent (snd (invoke this (Spec.calendar_call o start end_) w)) =
    sent w ++ [mkFetchCall (ArrClient.request_url this ("/calendar" +:+ query))
                           (ArrClient.request_init this RequestInit.empty)].
Proof.
  destruct o; cbn [Spec.calendar_call invoke];
    unfold ArrClient.getCalendar, LidarrClient.getCalendar, ReadarrClient.getCalendar;
    cbn zeta; rewrite request_sent;
    destruct (truthy_string start), (truthy_string end_); reflexivity.
Qed.

(** C6.  For each of the three calendar operations: with a start date
    and an end date supplied (two non-empty strings), the request path
    is [/calendar?] followed by the query string [start=...&end=...] of
    the two encoded values, which the receiving end reads as exactly
    the pair [start] with the start date and the pair [end] with the
    end date; with both omitted, the request path is [/calendar],
    without a query string. *)
Theorem calendar_query_parameters (o : Spec.CalendarOperation)
    (this : ArrClient.t) (w : World) :
  (forall s e : string, s <> "" -> e <> "" ->
     exists query : string,
       sent (snd (invoke this (Spec.calendar_call o (Some s) (Some e)) w)) =
         sent w ++ [mkFetchCall (ArrClient.request_url this ("/calendar?" +:+ query))
                                (ArrClient.request_init this RequestInit.empty)]
       /\ query = "start=" +:+ urlencoded_serialize s
                    +:+ "&end=" +:+ urlencoded_serialize e
       /\ URLSearchParams.parse query = [("start", s); ("end", e)])
  /\ sent (snd (invoke this (Spec.calendar_call o None None) w)) =
       sent w ++ [mkFetchCall (ArrClient.request_url this "/calendar")
                              (ArrClient.request_init this RequestInit.empty)].
Proof.
  split.
  - intros s e Hs He.
    exists (URLSearchParams.toString [("start", s); ("end", e)]).
    split; [| split].
    + rewrite calendar_sent. cbn zeta.
      rewrite !truthy_string_Some by assumption. cbn [default app].
      replace (truthy (URLSearchParams.toString [("start", s); ("end", e)]))
        with true by reflexivity.
      reflexivity.
    + unfold URLSearchParams.toString, URLSearchParams.serialize_pair.
      cbn [map String.concat fst snd].
      rewrite !append_assoc. reflexivity.
    + apply parse_toString.
  - rewrite calendar_sent. reflexivity.
Qed.

End QueryString.

(* ===================================================================== *)
(** * The scenarios, run                                                 *)
(* ===================================================================== *)

(** Scenario: status 200 with body [[{"id":1,"name":"HD-1080p"}]] on
    [/qualityprofile]: the executor returns the array of that one
    object, after one GET to the versioned URL. *)
Example scenario_quality_profiles :
  ArrClient.getQualityProfiles Scenario.client (TestRuntime.world [Scenario.ok_200]) =
    (Fulfilled Scenario.quality_profiles,
     TestRuntime.state []
       [mkFetchCall "http://localhost:8989/api/v3/qualityprofile"
          {| RequestInit.method := None;
             RequestInit.headers :=
               Some {[ "Content-Type" := "application/json";
                       "X-Api-Key" := "abc123" ]};
             RequestInit.body := None |}]).
Proof. reflexivity. Qed.

(** Scenario: status 401 with body [Unauthorized]: the executor fails
    with the status and the body in the message. *)
Example scenario_unauthorized :
  fst (ArrClient.getQualityProfiles Scenario.client
         (TestRuntime.world [Scenario.unauthorized_401])) =
    Rejected (Error "sonarr API error: 401 Unauthorized - Unauthorized").
Proof. reflexivity. Qed.

(** The calendar example of the specification. *)
Example scenario_calendar :
  map fetch_url
    (sent (snd (ArrClient.getCalendar Scenario.client
                  (Some "2025-01-01") (Some "2025-01-08")
                  (TestRuntime.world [Scenario.ok_200])))) =
    ["http://localhost:8989/api/v3/calendar?start=2025-01-01&end=2025-01-08"].
Proof. reflexivity. Qed.

(** An empty string counts as an omitted date. *)
Example scenario_calendar_empty_start :
  map fetch_url
    (sent (snd (ArrClient.getCalendar Scenario.client
                  (Some "") (Some "2025-01-08")
                  (TestRuntime.world [Scenario.ok_200])))) =
    ["http://localhost:8989/api/v3/calendar?end=2025-01-08"].
Proof. reflexivity. Qed.

(** The message does not determine the status text and the body
    separately: two different responses fail alike. *)
Remark error_message_ambiguous :
  let first := {| Response.status := 500; Response.statusText := "a - b";
                  Response.body := Fulfilled "c" |} in
  let second := {| Response.status := 500; Response.statusText := "a";
                   Response.body := Fulfilled "b - c" |} in
  ArrClient.error_message Scenario.client first "c" =
    ArrClient.error_message Scenario.client second "b - c".
Proof. reflexivity. Qed.

(** C1, as stated, fails where the body cannot be read: the claim gives
    the failure an empty body text, the client hands on the failure of
    the read. *)
Lemma request_unreadable_body_counterexample :
  let w := TestRuntime.world [Fulfilled Scenario.broken_500] in
  let result := fst (ArrClient.request Scenario.client "/health" RequestInit.empty w) in
  Response.ok Scenario.broken_500 = false
  /\ result = Rejected (TypeError "terminated")
  /\ result <>
       Rejected (Spec.TypedFailure_error
                   {| Spec.service := sonarr;
                      Spec.status := Response.status Scenario.broken_500;
                      Spec.statusText := Response.statusText Scenario.broken_500;
                      Spec.body := Spec.best_effort_text Scenario.broken_500 |}).
Proof.
  intros w result.
  assert (Hresult : result = Rejected (TypeError "terminated")) by reflexivity.
  split; [reflexivity |]. split; [exact Hresult |].
  rewrite Hresult. unfold Spec.TypedFailure_error. discriminate.
Qed.

Lemma request_not_ok_fails_witness :
  let w := TestRuntime.world [Scenario.unauthorized_401] in
  let response := {| Response.status := 401; Response.statusText := "Unauthorized";
                     Response.body := Fulfilled "Unauthorized" |} in
  net_fetch
    (mkFetchCall (ArrClient.request_url Scenario.client "/qualityprofile")
                 (ArrClient.request_init Scenario.client RequestInit.empty))
    (net w) = (Fulfilled response, [])
  /\ Response.ok response = false
  /\ fst (ArrClient.request Scenario.client "/qualityprofile" RequestInit.empty w) =
       Rejected (Error "sonarr API error: 401 Unauthorized - Unauthorized").
Proof.
  intros w response. split; [reflexivity |]. split; [reflexivity |].
  rewrite (request_not_ok_fails Scenario.client "/qualityprofile"
             RequestInit.empty w response [] eq_refl eq_refl).
  reflexivity.
Defined.

Lemma request_url_is_base_api_version_path_witness :
  replace_trailing_slash "http://localhost:8989/" = "http://localhost:8989"
  /\ exists init,
       sent (snd (ArrClient.request
                    (LidarrClient.constructor (mkArrConfig "http://localhost:8989/" "abc123"))
                    "/artist" RequestInit.empty (TestRuntime.world []))) =
         [mkFetchCall "http://localhost:8989/api/v1/artist" init].
Proof.
  destruct (request_url_is_base_api_version_path lidarr
              (mkArrConfig "http://localhost:8989/" "abc123")
              "/artist" RequestInit.empty (TestRuntime.world []))
    as (Hsent & Hcut & _ & _).
  split.
  - apply (Hcut "http://localhost:8989"). reflexivity.
  - destruct (Hsent (LidarrClient.constructor
                       (mkArrConfig "http://localhost:8989/" "abc123")))
      as (_ & init & Hinit); [by right |].
    exists init. exact Hinit.
Defined.

Lemma request_ok_returns_parsed_body_witness :
  let w := TestRuntime.world [Scenario.ok_200] in
  let text := TestRuntime.json_text "[{'id':1,'name':'HD-1080p'}]" in
  let response := {| Response.status := 200; Response.statusText := "OK";
                     Response.body := Fulfilled text |} in
  net_fetch
    (mkFetchCall (ArrClient.request_url Scenario.client "/qualityprofile")
                 (ArrClient.request_init Scenario.client RequestInit.empty))
    (net w) = (Fulfilled response, [])
  /\ Response.ok response = true
  /\ text = TestRuntime.stringify Scenario.quality_profiles
  /\ TestRuntime.parse (TestRuntime.stringify Scenario.quality_profiles) =
       Some Scenario.quality_profiles
  /\ fst (ArrClient.request Scenario.client "/qualityprofile" RequestInit.empty w) =
       Fulfilled Scenario.quality_profiles.
Proof.
  intros w text response.
  assert (Htext : text = TestRuntime.stringify Scenario.quality_profiles)
    by reflexivity.
  assert (Hround : TestRuntime.parse (TestRuntime.stringify Scenario.quality_profiles)
                   = Some Scenario.quality_profiles)
    by reflexivity.
  split; [reflexivity |]. split; [reflexivity |].
  split; [exact Htext |]. split; [exact Hround |].
  destruct (request_ok_returns_parsed_body Scenario.client "/qualityprofile"
              RequestInit.empty w response [] text eq_refl eq_refl eq_refl)
    as [_ Hjson].
  exact (Hjson Scenario.quality_profiles Htext Hround).
Defined.


Lemma calendar_query_parameters_witness :
  exists query,
    sent (snd (ArrClient.getCalendar Scenario.client
                 (Some "2025-01-01") (Some "2025-01-08") (TestRuntime.world []))) =
      [mkFetchCall (ArrClient.request_url Scenario.client ("/calendar?" +:+ query))
                   (ArrClient.request_init Scenario.client RequestInit.empty)]
    /\ query = "start=2025-01-01&end=2025-01-08"
    /\ URLSearchParams.parse query = [("start", "2025-01-01"); ("end", "2025-01-08")].
Proof.
  destruct (calendar_query_parameters Spec.ArrCalendar Scenario.client
              (TestRuntime.world [])) as [Hboth _].
  destruct (Hboth "2025-01-01" "2025-01-08") as (query & Hsent & Hquery & Hparse);
    [discriminate | discriminate |].
  exists query. split; [exact Hsent |]. split; [| exact Hparse].
  rewrite Hquery. reflexivity.
Defined.

Lemma trigger_search_posts_command_witness :
  fst (SonarrClient.searchMissing Scenario.client 7
         (TestRuntime.world [Scenario.command_201])) =
    Fulfilled (JObject {[ "id" := JNumber 42 ]}).
Proof.
  destruct (trigger_search_posts_command Spec.SeriesSearch 7 Scenario.client
              (TestRuntime.world [Scenario.command_201])) as (_ & _ & Hresult).
  apply (Hresult {| Response.status := 201; Response.statusText := "Created";
                    Response.body := Fulfilled (TestRuntime.json_text "{'id':42}") |}
                 (TestRuntime.json_text "{'id':42}"));
    reflexivity.
Defined.

Lemma successive_calls_agree_witness :
  let w := TestRuntime.world [Scenario.ok_200; Scenario.ok_200] in
  let first := invoke Scenario.client CGetQualityProfiles w in
  let second := invoke Scenario.client CGetQualityProfiles (snd first) in
  (forall call, fst (net_fetch call (net w)) = fst (net_fetch call (net (snd first))))
  /\ fst first = fst second
  /\ exists call, sent (snd second) = [call; call].
Proof.
  intros w first second.
  assert (Hsame : forall call,
            fst (net_fetch call (net w)) = fst (net_fetch call (net (snd first))))
    by (intros call; reflexivity).
  split; [exact Hsame |].
  exact (successive_calls_agree Scenario.client CGetQualityProfiles w Hsame).
Defined.

Lemma add_augments_payload_witness :
  exists payload : gmap string JsValue,
    payload !! "monitored" = Some (JBool true)
    /\ payload !! "addOptions" =
         Some (JObject {[ "searchForMissingEpisodes" := JBool true ]})
    /\ payload !! "tvdbId" = Some (JNumber 121361).
Proof.
  destruct (add_augments_payload Spec.AddSeries Scenario.new_series Scenario.client
              (TestRuntime.world []))
    as (payload & _ & Hoptions & Hmonitored & _ & Hother).
  exists payload. split; [| split].
  - apply Hmonitored. reflexivity.
  - exact Hoptions.
  - rewrite Hother by discriminate. reflexivity.
Defined.

(* ===================================================================== *)
(** * Further properties of the client                                   *)
(* ===================================================================== *)

Section Encoding.

(** An encoded byte of [encodeURIComponent] decodes to the byte, also
    under the form decoding a query string goes through. *)
Lemma decode_uri_component_byte (c : ascii) (rest : string) :
  percent_decode (plus_to_space (uri_component_byte c +:+ rest)) =
    String c (percent_decode (plus_to_space rest)).
Proof. destruct c as [[] [] [] [] [] [] [] []]; reflexivity. Qed.

Lemma decode_encodeURIComponent (s : string) :
  percent_decode (plus_to_space (encodeURIComponent s)) = s.
Proof.
  induction s as [| c s IH]; [reflexivity |].
  cbn [encodeURIComponent]. rewrite decode_uri_component_byte. by rewrite IH.
Qed.

(** The characters with a meaning in a URL after the path do not occur
    in an encoded byte. *)
Lemma uri_component_byte_reserved (c : ascii) :
  forallb (fun r => negb (mem_ascii r (uri_component_byte c)))
    ["&"; "="; "?"; "#"; "/"; "+"; " "]%char = true.
Proof. destruct c as [[] [] [] [] [] [] [] []]; reflexivity. Qed.

Lemma encodeURIComponent_reserved (s : string) (r : ascii) :
  In r ["&"; "="; "?"; "#"; "/"; "+"; " "]%char ->
  mem_ascii r (encodeURIComponent s) = false.
Proof.
  intros Hr. induction s as [| c s IH]; [reflexivity |].
  cbn [encodeURIComponent]. rewrite mem_ascii_append, IH, orb_false_r.
  pose proof (uri_component_byte_reserved c) as Hc.
  rewrite forallb_forall in Hc. apply negb_true_iff. by apply Hc.
Qed.

(** Digits and dashes are left alone by both encoders. *)
Lemma plain_byte (c : ascii) :
  Ops.is_digit_or_dash c = true ->
  urlencoded_byte c = String c "" /\ uri_component_byte c = String c "".
Proof. destruct c as [[] [] [] [] [] [] [] []]; intros Hc; try discriminate Hc; by split. Qed.

Lemma urlencoded_serialize_plain (s : string) :
  Ops.digits_and_dashes s = true -> urlencoded_serialize s = s.
Proof.
  induction s as [| c s IH]; [reflexivity |]. cbn [Ops.digits_and_dashes].
  intros [Hc Hs]%andb_prop. cbn [urlencoded_serialize].
  destruct (plain_byte c Hc) as [-> _]. rewrite IH by exact Hs. reflexivity.
Qed.

Lemma pretty_N_char_plain (d : N) : Ops.is_digit_or_dash (pretty_N_char d) = true.
Proof. destruct d as [| [[[[]|[]|]|[[]|[]|]|]|[[[]|[]|]|[[]|[]|]|]|]]; reflexivity. Qed.

Lemma pretty_N_go_plain (x : N) (s : string) :
  Ops.digits_and_dashes s = true -> Ops.digits_and_dashes (pretty_N_go x s) = true.
Proof.
  revert s. induction (N.lt_wf_0 x) as [x _ IH]; intros s Hs.
  destruct (decide (x = 0)%N) as [-> | Hx]; [by rewrite pretty_N_go_0 |].
  rewrite pretty_N_go_step by lia. apply IH.
  - apply N.div_lt; lia.
  - cbn [Ops.digits_and_dashes]. by rewrite pretty_N_char_plain, Hs.
Qed.

(** A formatted integer consists of digits, after a dash when it is
    negative. *)
Lemma Number_toString_plain (n : Z) : Ops.digits_and_dashes (Number_toString n) = true.
Proof.
  assert (HN : forall x : N, Ops.digits_and_dashes (pretty x) = true).
  { intros x. unfold pretty, pretty_N. destruct (decide (x = 0)%N); [reflexivity |].
    by apply pretty_N_go_plain. }
  unfold Number_toString, pretty, pretty_Z. destruct n as [| p | p].
  - reflexivity.
  - exact (HN (N.pos p)).
  - change (Ops.digits_and_dashes (String "-" (pretty (N.pos p))) = true).
    cbn [Ops.digits_and_dashes].
    apply andb_true_intro. split; [reflexivity | exact (HN (N.pos p))].
Qed.

End Encoding.

Section Queries.
Context `{Runtime}.
Implicit Types (this : ArrClient.t) (w : World).

Lemma truthy_append (a b : string) : truthy a = true -> truthy (a +:+ b) = true.
Proof. destruct a; [discriminate | reflexivity]. Qed.

(** A query string is empty only for an empty list of pairs. *)
Lemma toString_truthy (p : string * string) (params : URLSearchParams.t) :
  truthy (URLSearchParams.toString (p :: params)) = true.
Proof.
  unfold URLSearchParams.toString. cbn [map String.concat].
  destruct (map URLSearchParams.serialize_pair params).
  - apply serialize_pair_truthy.
  - apply truthy_append, serialize_pair_truthy.
Qed.

Lemma foldl_append {A} (name : string) (f : A -> string)
    (params : URLSearchParams.t) (xs : list A) :
  foldl (fun ps x => URLSearchParams.append ps name (f x)) params xs =
    params ++ map (fun x => (name, f x)) xs.
Proof.
  revert params. induction xs as [| x xs IH]; intros params; cbn.
  - by rewrite app_nil_r.
  - rewrite IH. unfold URLSearchParams.append. by rewrite <- app_assoc.
Qed.

(** A pair whose name and value need no encoding is written as it is. *)
Lemma serialize_pair_plain (name value : string) :
  urlencoded_serialize name = name ->
  Ops.digits_and_dashes value = true ->
  URLSearchParams.serialize_pair (name, value) = name +:+ "=" +:+ value.
Proof.
  intros Hname Hvalue. unfold URLSearchParams.serialize_pair. cbn [fst snd].
  by rewrite Hname, urlencoded_serialize_plain.
Qed.

(** ** Lookup *)

(** X1.  A lookup with a well-formed term (a term without a lone
    surrogate: on any other, [encodeURIComponent] throws and no request
    is made) sends a GET to the lookup path of its entity with the
    query string [term=] followed by the encoded term.  The encoded
    term contains none of the characters that structure a URL, and the
    receiving end reads the query as the single pair [term] with the
    caller's term, whatever characters the well-formed term is made
    of. *)
Theorem lookup_term_reaches_remote (o : Ops.Lookup) (term : string) this w :
  is_well_formed term = true ->
  exists query : string,
    sent (snd (invoke this (Ops.lookup_call o term) w)) =
      sent w ++ [mkFetchCall
                   (ArrClient.request_url this (Ops.lookup_path o +:+ "?" +:+ query))
                   (ArrClient.request_init this RequestInit.empty)]
    /\ query = "term=" +:+ encodeURIComponent term
    /\ URLSearchParams.parse query = [("term", term)]
    /\ (forall r : ascii,
          In r ["&"; "="; "?"; "#"; "/"; "+"; " "]%char ->
          mem_ascii r (encodeURIComponent term) = false).
Proof.
  intros _. exists ("term=" +:+ encodeURIComponent term).
  split; [| split; [reflexivity | split]].
  - destruct o; cbn [Ops.lookup_call invoke Ops.lookup_path];
      unfold SonarrClient.searchSeries, RadarrClient.searchMovies,
        LidarrClient.searchArtists, ReadarrClient.searchAuthors;
      rewrite request_sent; reflexivity.
  - unfold URLSearchParams.parse.
    rewrite split_on_free.
    2:{ rewrite mem_ascii_append.
        rewrite (encodeURIComponent_reserved term "&") by (cbn; tauto).
        reflexivity. }
    cbn [List.filter]. rewrite truthy_append by reflexivity. cbn [map].
    unfold URLSearchParams.parse_pair.
    change ("term=" +:+ encodeURIComponent term)
      with ("term" +:+ String "=" (encodeURIComponent term)).
    rewrite cut_at_first by reflexivity.
    by rewrite decode_encodeURIComponent.
  - intros r Hr. by apply encodeURIComponent_reserved.
Qed.

(** ** Indexer search *)

(** X2.  For a well-formed query and categories that are safe integers
    (up to 2^53 - 1 in absolute value), [ProwlarrClient.search] sends a
    GET to [/search] whose query the receiving end reads as the pair
    [query] with the caller's query, followed by one pair [categories]
    per category, in order, each with the decimal form of the category;
    without categories, or with an empty list, the query is the [query]
    pair alone. *)
Theorem prowlarr_search_query (query : string) (categories : option (list Z)) this w :
  is_well_formed query = true ->
  forallb is_safe_integer (default [] categories) = true ->
  let params :=
    ("query", query)
      :: map (fun c => ("categories", Number_toString c)) (default [] categories) in
  sent (snd (ProwlarrClient.search this query categories w)) =
    sent w ++ [mkFetchCall
                 (ArrClient.request_url this
                    ("/search?" +:+ URLSearchParams.toString params))
                 (ArrClient.request_init this RequestInit.empty)]
  /\ URLSearchParams.parse (URLSearchParams.toString params) = params.
Proof.
  intros _ _ params. split; [| apply parse_toString].
  unfold ProwlarrClient.search. cbn zeta. rewrite request_sent.
  do 4 f_equal. unfold params.
  destruct categories as [cs |]; [| reflexivity].
  rewrite foldl_append. reflexivity.
Qed.

(** ** Calendar *)

(** X3.  A calendar operation sends the dates that are truthy: a date
    that is omitted or is the empty string is left out.  With no date
    left the path is [/calendar]; otherwise it is [/calendar?] followed
    by a query that the receiving end reads as exactly the dates that
    were taken, [start] before [end]. *)
Theorem calendar_sends_truthy_dates (o : Spec.CalendarOperation)
    (start end_ : option string) this w :
  let params := Ops.calendar_params start end_ in
  sent (snd (invoke this (Spec.calendar_call o start end_) w)) =
    sent w ++ [mkFetchCall
                 (ArrClient.request_url this
                    (match params with
                     | [] => "/calendar"
                     | _ :: _ => "/calendar?" +:+ URLSearchParams.toString params
                     end))
                 (ArrClient.request_init this RequestInit.empty)]
  /\ URLSearchParams.parse (URLSearchParams.toString params) = params
  /\ params =
       match start with Some (String c s) => [("start", String c s)] | _ => [] end
       ++ match end_ with Some (String c e) => [("end", String c e)] | _ => [] end.
Proof.
  intros params. split; [| split; [apply parse_toString |]].
  - rewrite calendar_sent. cbn zeta. fold (Ops.calendar_params start end_).
    fold params. destruct params as [| p params'].
    + reflexivity.
    + rewrite toString_truthy. reflexivity.
  - unfold params, Ops.calendar_params.
    destruct start as [[| c s] |], end_ as [[| d e] |]; reflexivity.
Qed.

(** X4.  Dates made of digits and dashes, such as ISO dates, are sent
    as they are: the path is [/calendar?start=] with the start date,
    [&end=] and the end date. *)
Theorem calendar_dates_sent_verbatim (o : Spec.CalendarOperation)
    (s e : string) this w :
  s <> "" -> e <> "" ->
  Ops.digits_and_dashes s = true -> Ops.digits_and_dashes e = true ->
  sent (snd (invoke this (Spec.calendar_call o (Some s) (Some e)) w)) =
    sent w ++ [mkFetchCall
                 (ArrClient.request_url this
                    ("/calendar?start=" +:+ s +:+ "&end=" +:+ e))
                 (ArrClient.request_init this RequestInit.empty)].
Proof.
  intros Hs He Hps Hpe. rewrite calendar_sent. cbn zeta.
  rewrite !truthy_string_Some by assumption. cbn [default app].
  rewrite toString_truthy. do 3 f_equal.
  unfold URLSearchParams.toString. cbn [map String.concat].
  rewrite !serialize_pair_plain by (reflexivity || assumption).
  rewrite !append_assoc. reflexivity.
Qed.

(** ** Episodes, albums, books *)

(** X5.  For a series id and a season number that are safe integers
    (up to 2^53 - 1 in absolute value), [getEpisodes] sends a GET to
    [/episode] whose query the receiving end reads as the pair
    [seriesId] with the decimal form of the series id, followed, when a
    season number is given, by the pair [seasonNumber] with its decimal
    form; season 0 is a season number like any other. *)
Theorem getEpisodes_query (seriesId : Z) (seasonNumber : option Z) this w :
  is_safe_integer seriesId = true ->
  from_option is_safe_integer true seasonNumber = true ->
  let params :=
    ("seriesId", Number_toString seriesId)
      :: match seasonNumber with
         | Some n => [("seasonNumber", Number_toString n)]
         | None => []
         end in
  exists query : string,
    sent (snd (SonarrClient.getEpisodes this seriesId seasonNumber w)) =
      sent w ++ [mkFetchCall (ArrClient.request_url this ("/episode?" +:+ query))
                             (ArrClient.request_init this RequestInit.empty)]
    /\ URLSearchParams.parse query = params.
Proof.
  intros _ _ params. exists (URLSearchParams.toString params).
  split; [| apply parse_toString].
  unfold SonarrClient.getEpisodes. cbn zeta. rewrite request_sent.
  do 3 f_equal. unfold params, URLSearchParams.toString.
  destruct seasonNumber as [n |]; cbn [map String.concat];
    rewrite !serialize_pair_plain by (reflexivity || apply Number_toString_plain);
    rewrite ?append_assoc; reflexivity.
Qed.

(** X6.  [getAlbums] and [getBooks] filter by owner only for an id
    other than 0: without an id, and with the id 0, the path is the
    bare collection; with any other id that is a safe integer (up to
    2^53 - 1 in absolute value) the query is read by the receiving end
    as the single pair of the owner key and the decimal form of the
    id. *)
Theorem owned_list_filter (o : Ops.OwnedList) (owner : option Z) this w :
  exists path : string,
    sent (snd (invoke this (Ops.owned_call o owner) w)) =
      sent w ++ [mkFetchCall (ArrClient.request_url this path)
                             (ArrClient.request_init this RequestInit.empty)]
    /\ (owner = None \/ owner = Some 0%Z -> path = Ops.owned_path o)
    /\ (forall n : Z, owner = Some n -> n <> 0%Z -> is_safe_integer n = true ->
          exists query : string,
            path = Ops.owned_path o +:+ "?" +:+ query
            /\ URLSearchParams.parse query = [(Ops.owned_key o, Number_toString n)]).
Proof.
  exists (if truthy_number owner
          then Ops.owned_path o +:+ "?" +:+ Ops.owned_key o +:+ "="
                 +:+ Number_toString (default 0%Z owner)
          else Ops.owned_path o).
  split; [| split].
  - destruct o; cbn [Ops.owned_call invoke];
      unfold LidarrClient.getAlbums, ReadarrClient.getBooks; cbn zeta;
      rewrite request_sent; by destruct (truthy_number owner).
  - by intros [-> | ->].
  - intros n -> Hn _.
    exists (URLSearchParams.toString [(Ops.owned_key o, Number_toString n)]).
    split; [| apply parse_toString].
    unfold URLSearchParams.toString. cbn [map String.concat].
    destruct o; cbn [Ops.owned_key Ops.owned_path];
      rewrite serialize_pair_plain by (reflexivity || apply Number_toString_plain);
      by destruct n.
Qed.

End Queries.

Create HintDb methods discriminated.

Section EveryMethod.
Context `{Runtime}.
Implicit Types (this : ArrClient.t) (w : World) (c : Call).

#[local] Hint Unfold
  ArrClient.getStatus ArrClient.getQueue ArrClient.getCalendar
  ArrClient.getRootFolders ArrClient.getQualityProfiles
  ArrClient.getQualityDefinitions ArrClient.getDownloadClients
  ArrClient.getNamingConfig ArrClient.getMediaManagement ArrClient.getHealth
  ArrClient.getTags ArrClient.getRootFoldersDetailed ArrClient.getIndexers
  SonarrClient.getSeries SonarrClient.getSeriesById SonarrClient.searchSeries
  SonarrClient.addSeries SonarrClient.searchMissing SonarrClient.getEpisodes
  SonarrClient.searchEpisode
  RadarrClient.getMovies RadarrClient.getMovieById RadarrClient.searchMovies
  RadarrClient.addMovie RadarrClient.searchMovie
  LidarrClient.getArtists LidarrClient.getArtistById LidarrClient.searchArtists
  LidarrClient.addArtist LidarrClient.getAlbums LidarrClient.getAlbumById
  LidarrClient.searchMissingAlbums LidarrClient.searchAlbum
  LidarrClient.getCalendar LidarrClient.getMetadataProfiles
  ReadarrClient.getAuthors ReadarrClient.getAuthorById ReadarrClient.searchAuthors
  ReadarrClient.addAuthor ReadarrClient.getBooks ReadarrClient.getBookById
  ReadarrClient.searchMissingBooks ReadarrClient.searchBook
  ReadarrClient.getCalendar ReadarrClient.getMetadataProfiles
  ProwlarrClient.getIndexers ProwlarrClient.testAllIndexers
  ProwlarrClient.testIndexer ProwlarrClient.getIndexerStats
  ProwlarrClient.search post_json post_empty : methods.

(** Without overrides the headers are the two defaults. *)
Lemma request_headers_default this options :
  RequestInit.headers options = None ->
  ArrClient.request_headers this options =
    {[ "Content-Type" := "application/json";
       "X-Api-Key" := apiKey (ArrClient.config this) ]}.
Proof.
  intros Hnone. unfold ArrClient.request_headers, spread. rewrite Hnone. cbn.
  rewrite (left_id_L ∅ (∪)). reflexivity.
Qed.

(** The log after [testConnection] is the log after [getStatus]. *)
Lemma testConnection_sent this w :
  sent (snd (ArrClient.testConnection this w)) =
    sent w ++ [mkFetchCall (ArrClient.request_url this "/system/status")
                           (ArrClient.request_init this RequestInit.empty)].
Proof.
  rewrite testConnection_run. cbn [snd]. unfold ArrClient.getStatus.
  apply request_sent.
Qed.

(** ** Methods, bodies, headers *)

(** X7.  Whatever method is called, unless it is a lookup with a term
    that is not well formed (which throws before any request), it sends
    one request, and that request names the method POST or none (so
    GET); POST is named by the add, the trigger-search and the
    indexer-test methods and by no other; a body is sent by the add and
    the trigger-search methods and by no other, so never with GET; and
    the headers are exactly [Content-Type: application/json] and
    [X-Api-Key] with the configured key. *)
Theorem methods_get_or_post this c w :
  Ops.well_formed_call c = true ->
  exists call : FetchCall,
    sent (snd (invoke this c w)) = sent w ++ [call]
    /\ RequestInit.method (fetch_init call) =
         (if Ops.posts c then Some "POST" else None)
    /\ match RequestInit.body (fetch_init call) with
       | Some _ => Ops.carries_body c = true
       | None => Ops.carries_body c = false
       end
    /\ RequestInit.headers (fetch_init call) =
         Some {[ "Content-Type" := "application/json";
                 "X-Api-Key" := apiKey (ArrClient.config this) ]}.
Proof.
  intros _. destruct c; cbn [invoke]; eexists;
    (split;
     [first [apply testConnection_sent
            | autounfold with methods; cbn zeta; apply request_sent]
     | cbn; repeat split; f_equal; by apply request_headers_default]).
Qed.

(** ** Outcomes *)

(** X8.  When the exchange itself fails (connection refused, DNS,
    timeout), every method but [testConnection] is rejected with that
    very failure, [testConnection] answers false, and in both cases
    the request has been attempted exactly once. *)
Theorem transport_failure_surfaces this c w (e : JsError) :
  (forall call, fst (net_fetch call (net w)) = Rejected e) ->
  fst (invoke this c w) =
    match c with
    | CTestConnection => Fulfilled (JBool false)
    | _ => Rejected e
    end
  /\ length (sent (snd (invoke this c w))) = S (length (sent w)).
Proof.
  intros Hfail.
  destruct (invoke_run this c) as (endpoint & options & _ & Hrun).
  cbn zeta in Hrun. rewrite Hrun. cbn [fst snd sent]. rewrite Hfail. split.
  - by destruct c.
  - rewrite length_app. cbn. lia.
Qed.

(** X9.  When the remote answers with a response whose body can be
    read, every method but [testConnection] returns what the executor
    makes of it and nothing else: for a status in 200-299 the parsed
    body as it is, or the parse failure for a body that is not JSON
    (also for the methods that POST); for any other status the [Error]
    with the service name, status, status text and body in its
    message. *)
Theorem remote_answer_decides this c w (response : Response.t) (text : string) :
  c <> CTestConnection ->
  (forall call, fst (net_fetch call (net w)) = Fulfilled response) ->
  Response.body response = Fulfilled text ->
  fst (invoke this c w) =
    if Response.ok response then
      match JSON_parse text with
      | Some v => Fulfilled v
      | None => Rejected SyntaxError
      end
    else Rejected (Error (ArrClient.error_message this response text)).
Proof.
  intros Hc Hanswer Hbody.
  destruct (invoke_run this c) as (endpoint & options & _ & Hrun).
  cbn zeta in Hrun. rewrite Hrun. cbn [fst]. rewrite Hanswer.
  assert (Hout : call_outcome this c (Fulfilled response) =
                 request_outcome this (Fulfilled response))
    by (destruct c; try reflexivity; contradiction).
  rewrite Hout. cbn. by rewrite Hbody.
Qed.

(** ** Entities by id *)

(** X10.  The methods that read one entity by id address different
    ids under different URLs, for ids that are safe integers (up to
    2^53 - 1 in absolute value). *)
Theorem by_id_urls_differ (o : Ops.ById) (a b : Z) this w :
  is_safe_integer a = true -> is_safe_integer b = true ->
  a <> b ->
  map fetch_url (sent (snd (invoke this (Ops.by_id_call o a) w))) <>
    map fetch_url (sent (snd (invoke this (Ops.by_id_call o b) w))).
Proof.
  intros _ _ Hab Heq. apply Hab.
  destruct o; cbn [Ops.by_id_call invoke] in Heq;
    autounfold with methods in Heq; rewrite !request_sent, !map_app in Heq;
    apply app_inv_head in Heq; cbn in Heq; injection Heq as Heq;
    unfold ArrClient.request_url in Heq;
    do 4 apply String.app_inj in Heq;
    exact (pretty_Z_inj _ _ Heq).
Qed.

(** ** Add operations *)

(** X11.  An add operation never drops a property of the caller's
    object: the properties sent are the caller's together with
    [monitored] and [addOptions], and for a series [seasonFolder].  An
    explicit boolean for [monitored] is sent as given.  [seasonFolder]
    is defaulted to true for a series only (the caller's value when it
    is neither null nor undefined); the other add operations send it
    as the caller has it. *)
Theorem add_keeps_entity_properties (a : Spec.AddOperation)
    (entity : gmap string JsValue) this w :
  exists payload : gmap string JsValue,
    sent (snd (invoke this (Spec.add_call a entity) w)) =
      sent w ++ [mkFetchCall (ArrClient.request_url this (Spec.add_endpoint a))
                   (ArrClient.request_init this (post_json (JObject payload)))]
    /\ dom payload =
         dom entity ∪ {[ "monitored"; "addOptions" ]}
           ∪ (match a with Spec.AddSeries => {[ "seasonFolder" ]} | _ => ∅ end)
    /\ payload !! "seasonFolder" =
         match a with
         | Spec.AddSeries => Some (nullish (get entity "seasonFolder") (JBool true))
         | _ => entity !! "seasonFolder"
         end
    /\ (forall b : bool, entity !! "monitored" = Some (JBool b) ->
          payload !! "monitored" = Some (JBool b)).
Proof.
  destruct a; cbn [Spec.add_call invoke Spec.add_endpoint];
    autounfold with methods; rewrite request_sent;
    unfold SonarrClient.addSeries_payload, RadarrClient.addMovie_payload,
      LidarrClient.addArtist_payload, ReadarrClient.addAuthor_payload;
    (eexists; split; [reflexivity |]);
    (split; [rewrite !dom_insert_L; apply set_eq; intros k;
             rewrite !elem_of_union, ?elem_of_singleton, ?elem_of_empty; tauto |]);
    (split; [by simplify_map_eq |]);
    intros b Hb; unfold get; rewrite lookup_insert_ne by done;
    rewrite ?lookup_insert_ne by done; rewrite lookup_insert_eq, Hb; reflexivity.
Qed.

End EveryMethod.

(** ** Configuration *)

(** X12.  A final slash in the configured URL makes no difference: for
    a URL [v] without a final slash, the client built from [v/] is the
    client built from [v], under every family. *)
Theorem trailing_slash_is_irrelevant (s : ArrService) (v key : string) :
  (forall u, v <> u +:+ "/") ->
  family_constructor s (mkArrConfig (v +:+ "/") key) =
    family_constructor s (mkArrConfig v key).
Proof.
  intros Hv%replace_trailing_slash_id.
  destruct s; cbn; unfold SonarrClient.constructor, RadarrClient.constructor,
    LidarrClient.constructor, ReadarrClient.constructor,
    ProwlarrClient.constructor, ArrClient.constructor, set_apiVersion; cbn;
    by rewrite replace_trailing_slash_snoc, Hv.
Qed.

(* ===================================================================== *)
(** * Properties of the server                                           *)
(* ===================================================================== *)

Section ServerStartup.

Lemma foldl_insert_other {A B} (key : A -> string) (mk : A -> B) (l : list A)
    (acc : gmap string B) (k : string) :
  (forall a, In a l -> key a <> k) ->
  foldl (fun m a => <[key a := mk a]> m) acc l !! k = acc !! k.
Proof.
  revert acc. induction l as [| a l IH]; intros acc Hk; [reflexivity |].
  cbn [foldl]. rewrite IH by (intros b Hb; apply Hk; by right).
  apply lookup_insert_ne, Hk. by left.
Qed.

Lemma foldl_insert_filter {A B} (key : A -> string) (mk : A -> B) (P : A -> bool)
    (l : list A) (acc : gmap string B) (a : A) :
  NoDup (map key l) -> In a l ->
  foldl (fun m a => <[key a := mk a]> m) acc (List.filter P l) !! key a =
    if P a then Some (mk a) else acc !! key a.
Proof.
  revert acc. induction l as [| b l IH]; intros acc Hnodup Hin; [destruct Hin |].
  cbn [map] in Hnodup. apply NoDup_cons in Hnodup as [Hb Hnodup].
  assert (Hother : forall c, In c (List.filter P l) -> key c <> key b).
  { intros c [Hc _]%filter_In Heq. apply Hb. rewrite <- Heq.
    apply list_elem_of_In, in_map, Hc. }
  cbn [List.filter]. destruct Hin as [-> | Hin].
  - destruct (P a); cbn [foldl].
    + rewrite foldl_insert_other by exact Hother. apply lookup_insert_eq.
    + by apply foldl_insert_other.
  - assert (Hne : key b <> key a).
    { intros Heq. apply Hb. rewrite Heq. apply list_elem_of_In, in_map, Hin. }
    destruct (P b); cbn [foldl]; rewrite IH by assumption;
      destruct (P a); try reflexivity.
    by apply lookup_insert_ne.
Qed.

Lemma NoDup_map_filter {A} (f : A -> string) (P : A -> bool) (l : list A) :
  NoDup (map f l) -> NoDup (map f (List.filter P l)).
Proof.
  induction l as [| a l IH]; intros Hnodup; [exact Hnodup |].
  cbn [map] in Hnodup. apply NoDup_cons in Hnodup as [Ha Hnodup].
  cbn [List.filter]. destruct (P a); [| by apply IH].
  cbn [map]. apply NoDup_cons. split; [| by apply IH].
  intros Hin. apply Ha. apply list_elem_of_In in Hin.
  apply in_map_iff in Hin as (b & Hb & [Hin _]%filter_In).
  rewrite <- Hb. apply list_elem_of_In, in_map, Hin.
Qed.

(** The five services go by five different names. *)
Lemma services_keys_NoDup (env : string -> option string) :
  NoDup (map Server.key (Server.services env)).
Proof. apply (bool_decide_unpack _). reflexivity. Qed.

Lemma configuredServices_keys_NoDup (env : string -> option string) :
  NoDup (map Server.key (Server.configuredServices env)).
Proof. apply NoDup_map_filter, services_keys_NoDup. Qed.

(** Two of the services with one name are one. *)
Lemma services_key_inj (env : string -> option string)
    (s t : Server.ServiceConfig) :
  In s (Server.services env) -> In t (Server.services env) ->
  Server.key s = Server.key t -> s = t.
Proof.
  pose proof (services_keys_NoDup env) as Hnodup.
  revert Hnodup. generalize (Server.services env).
  induction l as [| a l IH]; [intros _ [] |].
  cbn [map]. intros [Ha Hnodup]%NoDup_cons Hs Ht Heq.
  destruct Hs as [-> | Hs], Ht as [-> | Ht]; try done.
  - exfalso. apply Ha. rewrite Heq. apply list_elem_of_In, in_map, Ht.
  - exfalso. apply Ha. rewrite <- Heq. apply list_elem_of_In, in_map, Hs.
  - by apply IH.
Qed.

(** The client under the name of a service. *)
Lemma clients_lookup (env : string -> option string)
    (service : Server.ServiceConfig) :
  In service (Server.services env) ->
  Server.clients env !! Server.key service =
    if Server.is_configured service then Some (Server.client_of service) else None.
Proof.
  intros Hin.
  exact (foldl_insert_filter Server.key Server.client_of Server.is_configured
           (Server.services env) ∅ service (services_keys_NoDup env) Hin).
Qed.

Lemma clients_lookup_other (env : string -> option string) (k : string) :
  (forall s : ArrService, k <> ArrService_toString s) ->
  Server.clients env !! k = None.
Proof.
  intros Hk.
  pose proof (foldl_insert_other Server.key Server.client_of
                (Server.configuredServices env) ∅ k) as Hfold.
  rewrite lookup_empty in Hfold. apply Hfold.
  intros a _ Heq. by apply (Hk (Server.name a)).
Qed.

(** X13.  After start-up there is a client for a service exactly when
    both of its environment variables are set and non-empty; it is the
    client of the service's own class, built from the two values.  No
    other name has a client. *)
Theorem clients_are_the_configured_services (env : string -> option string) :
  (forall service : Server.ServiceConfig,
     In service (Server.services env) ->
     Server.clients env !! ArrService_toString (Server.name service) =
       if truthy_string (Server.url service) && truthy_string (Server.apiKey service)
       then Some (family_constructor (Server.name service)
                    (mkArrConfig (default "" (Server.url service))
                                 (default "" (Server.apiKey service))))
       else None)
  /\ (forall k : string,
        (forall s : ArrService, k <> ArrService_toString s) ->
        Server.clients env !! k = None).
Proof.
  split; [exact (clients_lookup env) | exact (clients_lookup_other env)].
Qed.

End ServerStartup.

Section ServerHandler.
Context `{Runtime} `{Server.Engine}.
Implicit Types (w : World) (statuses : gmap string JsValue).

(** One round of the first loop. *)
Lemma status_loop_cons (clients : gmap string ArrClient.t)
    (service : Server.ServiceConfig) (rest : list Server.ServiceConfig) statuses w :
  Server.status_loop clients (service :: rest) statuses w =
    match clients !! Server.key service with
    | Some client =>
        Server.status_loop clients rest
          (<[Server.key service :=
               Server.status_entry (fst (ArrClient.getStatus client w))]> statuses)
          (snd (ArrClient.getStatus client w))
    | None => Server.status_loop clients rest statuses w
    end.
Proof.
  cbn [Server.status_loop]. unfold bind at 1. unfold try_catch.
  fold (Server.key service).
  destruct (clients !! Server.key service) as [client |]; [| reflexivity].
  unfold bind at 1.
  destruct (ArrClient.getStatus client w) as [[status | e] w1]; [| reflexivity].
  cbn [fst snd]. unfold Server.status_entry, bind, settle, ret.
  destruct (Server.read status "version") as [version | e]; [| reflexivity].
  destruct (Server.read status "appName") as [appName | e]; reflexivity.
Qed.

Lemma getStatus_sent (service : Server.ServiceConfig) w :
  sent (snd (ArrClient.getStatus (Server.client_of service) w)) =
    sent w ++ [Server.status_call service].
Proof. unfold ArrClient.getStatus. apply request_sent. Qed.

(** The first loop over services that all have their client; [Inv] is
    any property of the world that a [getStatus] keeps. *)
Lemma status_loop_run (Inv : World -> Prop) (clients : gmap string ArrClient.t)
    (configured : list Server.ServiceConfig) :
  (forall client w, Inv w -> Inv (snd (ArrClient.getStatus client w))) ->
  (forall s, In s configured -> clients !! Server.key s = Some (Server.client_of s)) ->
  NoDup (map Server.key configured) ->
  forall statuses w, Inv w ->
  exists statuses' w',
    Server.status_loop clients configured statuses w = (Fulfilled statuses', w')
    /\ sent w' = sent w ++ map Server.status_call configured
    /\ (forall k, (forall s, In s configured -> Server.key s <> k) ->
          statuses' !! k = statuses !! k)
    /\ (forall s, In s configured ->
          exists wi, Inv wi /\ statuses' !! Server.key s =
            Some (Server.status_entry
                    (fst (ArrClient.getStatus (Server.client_of s) wi)))).
Proof.
  intros Hkeep.
  induction configured as [| service rest IH]; intros Hclients Hnodup statuses w Hw.
  - exists statuses, w. cbn. rewrite app_nil_r.
    split; [done |]. split; [done |]. split; [done |]. intros s [].
  - cbn [map] in Hnodup. apply NoDup_cons in Hnodup as [Hfresh Hnodup].
    rewrite status_loop_cons, (Hclients service) by (by left).
    destruct (IH (fun s Hs => Hclients s (or_intror Hs)) Hnodup
                (<[Server.key service :=
                     Server.status_entry
                       (fst (ArrClient.getStatus (Server.client_of service) w))]> statuses)
                (snd (ArrClient.getStatus (Server.client_of service) w))
                (Hkeep _ _ Hw))
      as (statuses' & w' & Hrun & Hsent & Hother & Hentries).
    exists statuses', w'. split; [exact Hrun |]. split; [| split].
    + rewrite Hsent, getStatus_sent. cbn [map]. by rewrite <- app_assoc.
    + intros k Hk. rewrite Hother by (intros s Hs; apply Hk; by right).
      apply lookup_insert_ne, Hk. by left.
    + intros s [<- | Hs]; [| by apply Hentries].
      exists w. split; [exact Hw |]. rewrite Hother; [apply lookup_insert_eq |].
      intros s Hs Heq. apply Hfresh. rewrite <- Heq.
      apply list_elem_of_In, in_map, Hs.
Qed.

(** The second loop, by name. *)
Lemma add_unconfigured_lookup (all : list Server.ServiceConfig) statuses (k : string) :
  Server.add_unconfigured all statuses !! k =
    match statuses !! k with
    | Some entry => Some entry
    | None =>
        if bool_decide (k ∈ map Server.key all)
        then Some (JObject {[ "configured" := JBool false ]})
        else None
    end.
Proof.
  unfold Server.add_unconfigured. revert statuses.
  induction all as [| a all IH]; intros statuses; cbn [foldl map].
  - by destruct (statuses !! k).
  - fold (Server.key a). rewrite IH.
    destruct (decide (Server.key a = k)) as [<- | Hne].
    + destruct (statuses !! Server.key a) as [entry |] eqn:Ha.
      * by rewrite Ha.
      * rewrite lookup_insert_eq. rewrite bool_decide_eq_true_2; [done |].
        by left.
    + assert (Hk : (match statuses !! Server.key a with
                    | Some _ => statuses
                    | None => <[Server.key a := JObject {[ "configured" := JBool false ]}]> statuses
                    end) !! k = statuses !! k).
      { destruct (statuses !! Server.key a); [done | by apply lookup_insert_ne]. }
      rewrite Hk. destruct (statuses !! k); [done |].
      rewrite (bool_decide_ext (k ∈ Server.key a :: map Server.key all)
                 (k ∈ map Server.key all)); [done |].
      rewrite elem_of_cons. split; [| by right].
      intros [Heq | Hin]; [by destruct Hne | exact Hin].
Qed.

Lemma configured_has_client (env : string -> option string)
    (s : Server.ServiceConfig) :
  In s (Server.configuredServices env) ->
  Server.clients env !! Server.key s = Some (Server.client_of s).
Proof.
  intros [Hin Hconf]%filter_In. rewrite clients_lookup by exact Hin.
  by rewrite Hconf.
Qed.

(** What [arr_status] does, in one equation per aspect. *)
Lemma arr_status_run (Inv : World -> Prop) (env : string -> option string) w :
  (forall client w, Inv w -> Inv (snd (ArrClient.getStatus client w))) ->
  Inv w ->
  exists statuses w',
    Server.arr_status env w =
      (Fulfilled (Server.text_content
                    (Server.JSON_stringify_indented (JObject statuses))), w')
    /\ sent w' = sent w ++ map Server.status_call (Server.configuredServices env)
    /\ (forall service, In service (Server.services env) ->
          if Server.is_configured service
          then exists wi, Inv wi /\ statuses !! Server.key service =
                 Some (Server.status_entry
                         (fst (ArrClient.getStatus (Server.client_of service) wi)))
          else statuses !! Server.key service =
                 Some (JObject {[ "configured" := JBool false ]}))
    /\ (forall k, (forall s : ArrService, k <> ArrService_toString s) ->
          statuses !! k = None).
Proof.
  intros Hkeep Hw.
  destruct (status_loop_run Inv (Server.clients env) (Server.configuredServices env)
              Hkeep (configured_has_client env)
              (configuredServices_keys_NoDup env) ∅ w Hw)
    as (statuses & w' & Hrun & Hsent & Hother & Hentries).
  exists (Server.add_unconfigured (Server.services env) statuses), w'.
  split; [| split; [exact Hsent | split]].
  - unfold Server.arr_status, bind. rewrite Hrun. reflexivity.
  - intros service Hin. rewrite add_unconfigured_lookup.
    destruct (Server.is_configured service) eqn:Hconf.
    + destruct (Hentries service) as (wi & Hwi & Hentry); [by apply filter_In |].
      exists wi. split; [exact Hwi |]. by rewrite Hentry.
    + rewrite Hother, lookup_empty.
      * rewrite bool_decide_eq_true_2; [done |].
        apply list_elem_of_In, in_map, Hin.
      * intros s [Hs Hsconf]%filter_In Heq.
        rewrite (services_key_inj env s service Hs Hin Heq) in Hsconf.
        congruence.
  - intros k Hk. rewrite add_unconfigured_lookup.
    rewrite Hother, lookup_empty.
    + rewrite bool_decide_eq_false_2; [done |].
      intros Hin. apply list_elem_of_In, in_map_iff in Hin as (s & Hs & _).
      by apply (Hk (Server.name s)).
    + intros s _ Heq. by apply (Hk (Server.name s)).
Qed.

(** The first loop, entry by entry: each service is recorded by its own
    [getStatus], made in the world the requests of the services before
    it have left. *)
Lemma status_loop_entries (clients : gmap string ArrClient.t)
    (configured : list Server.ServiceConfig) :
  (forall s, In s configured -> clients !! Server.key s = Some (Server.client_of s)) ->
  NoDup (map Server.key configured) ->
  forall statuses w,
  exists statuses',
    Server.status_loop clients configured statuses w =
      (Fulfilled statuses', Server.after_status configured w)
    /\ (forall k, (forall s, In s configured -> Server.key s <> k) ->
          statuses' !! k = statuses !! k)
    /\ (forall before service after,
          configured = before ++ service :: after ->
          statuses' !! Server.key service =
            Some (Server.status_entry
                    (fst (ArrClient.getStatus (Server.client_of service)
                            (Server.after_status before w))))).
Proof.
  induction configured as [| first rest IH]; intros Hclients Hnodup statuses w.
  - exists statuses. split; [reflexivity |]. split; [done |].
    intros [| b before] service after Hsplit; discriminate Hsplit.
  - cbn [map] in Hnodup. apply NoDup_cons in Hnodup as [Hfresh Hnodup].
    rewrite status_loop_cons, (Hclients first) by (by left).
    destruct (IH (fun s Hs => Hclients s (or_intror Hs)) Hnodup
                (<[Server.key first :=
                     Server.status_entry
                       (fst (ArrClient.getStatus (Server.client_of first) w))]> statuses)
                (snd (ArrClient.getStatus (Server.client_of first) w)))
      as (statuses' & Hrun & Hother & Hentries).
    exists statuses'. split; [exact Hrun |]. split.
    + intros k Hk. rewrite Hother by (intros s Hs; apply Hk; by right).
      apply lookup_insert_ne, Hk. by left.
    + intros [| b before] service after Hsplit; cbn [app] in Hsplit;
        injection Hsplit as <- ->.
      * rewrite Hother; [apply lookup_insert_eq |].
        intros s Hs Heq. apply Hfresh. rewrite <- Heq.
        apply list_elem_of_In, in_map, Hs.
      * exact (Hentries before service after eq_refl).
Qed.

(** X14.  [arr_status] never fails.  Its text is the serialization of
    an object with one entry per service and no other.  A service that
    is not configured is reported as [{ configured: false }].  A
    configured one is reported by the outcome of its own [getStatus]:
    the one made on its client after the requests of the configured
    services before it, as connected with the version and the
    application name of that answer, or as not connected with the
    message of that failure. *)
Theorem arr_status_reports_every_service (env : string -> option string) w :
  exists statuses : gmap string JsValue,
    fst (Server.arr_status env w) =
      Fulfilled (Server.text_content
                   (Server.JSON_stringify_indented (JObject statuses)))
    /\ (forall service, In service (Server.services env) ->
          if Server.is_configured service
          then exists before after,
                 Server.configuredServices env = before ++ service :: after
          else statuses !! Server.key service =
                 Some (JObject {[ "configured" := JBool false ]}))
    /\ (forall before service after,
          Server.configuredServices env = before ++ service :: after ->
          statuses !! Server.key service =
            Some (Server.status_entry
                    (fst (ArrClient.getStatus (Server.client_of service)
                            (Server.after_status before w)))))
    /\ (forall k, (forall s : ArrService, k <> ArrService_toString s) ->
          statuses !! k = None).
Proof.
  destruct (status_loop_entries (Server.clients env) (Server.configuredServices env)
              (configured_has_client env) (configuredServices_keys_NoDup env) ∅ w)
    as (statuses & Hrun & Hother & Hentries).
  exists (Server.add_unconfigured (Server.services env) statuses).
  split; [| split; [| split]].
  - unfold Server.arr_status, bind. rewrite Hrun. reflexivity.
  - intros service Hin. destruct (Server.is_configured service) eqn:Hconf.
    + assert (Hc : In service (Server.configuredServices env))
        by (by apply filter_In).
      apply in_split in Hc as (before & after & Hsplit). by exists before, after.
    + rewrite add_unconfigured_lookup, Hother, lookup_empty.
      * rewrite bool_decide_eq_true_2; [done |].
        apply list_elem_of_In, in_map, Hin.
      * intros s [Hs Hsconf]%filter_In Heq.
        rewrite (services_key_inj env s service Hs Hin Heq) in Hsconf.
        congruence.
  - intros before service after Hsplit.
    rewrite add_unconfigured_lookup. by rewrite (Hentries _ _ _ Hsplit).
  - intros k Hk. rewrite add_unconfigured_lookup.
    rewrite Hother, lookup_empty.
    + rewrite bool_decide_eq_false_2; [done |].
      intros Hin. apply list_elem_of_In, in_map_iff in Hin as (s & Hs & _).
      by apply (Hk (Server.name s)).
    + intros s _ Heq. by apply (Hk (Server.name s)).
Qed.

(** X15.  [arr_status] sends one request per configured service, the
    [getStatus] request of its client, in the order Sonarr, Radarr,
    Lidarr, Readarr, Prowlarr, whatever the earlier ones came to: a
    service that fails does not keep the later ones from being asked.
    A service that is not configured is not contacted. *)
Theorem arr_status_asks_each_configured_service (env : string -> option string) w :
  sent (snd (Server.arr_status env w)) =
    sent w ++ map Server.status_call (Server.configuredServices env).
Proof.
  destruct (arr_status_run (fun _ => True) env w (fun _ _ _ => I) I)
    as (statuses & w' & Hrun & Hsent & _).
  rewrite Hrun. exact Hsent.
Qed.

(** X16.  With the remote end down (every exchange fails with [e] and
    leaves the remote as it is), [arr_status] still succeeds and
    reports every configured service as configured and not connected,
    with the message of [e]; the others as not configured. *)
Theorem arr_status_when_remote_is_down (env : string -> option string) w
    (e : JsError) :
  (forall call, net_fetch call (net w) = (Rejected e, net w)) ->
  exists statuses : gmap string JsValue,
    fst (Server.arr_status env w) =
      Fulfilled (Server.text_content
                   (Server.JSON_stringify_indented (JObject statuses)))
    /\ forall service, In service (Server.services env) ->
         statuses !! Server.key service =
           Some (JObject (if Server.is_configured service
                          then {[ "configured" := JBool true;
                                  "connected" := JBool false;
                                  "error" := JString (Server.message_of e) ]}
                          else {[ "configured" := JBool false ]})).
Proof.
  intros Hdown.
  destruct (arr_status_run
              (fun w' => forall call, net_fetch call (net w') = (Rejected e, net w'))
              env w) as (statuses & w' & Hrun & _ & Hentries & _).
  - intros client w0 Hw0 call. unfold ArrClient.getStatus.
    rewrite request_run. cbn [snd net]. rewrite !Hw0. reflexivity.
  - exact Hdown.
  - exists statuses. rewrite Hrun. split; [done |].
    intros service Hin. specialize (Hentries service Hin).
    destruct (Server.is_configured service); [| exact Hentries].
    destruct Hentries as (wi & Hwi & ->). f_equal.
    unfold ArrClient.getStatus. rewrite request_run. cbn [fst].
    by rewrite Hwi.
Qed.

(** ** The naming tools *)

(** X17.  A naming tool called for a service without a client makes no
    request: the result is the text [Error: <service> not configured],
    marked as an error, and the world is as it was. *)
Theorem get_naming_without_client (env : string -> option string)
    (name : string) w :
  In name Server.naming_tools ->
  Server.clients env !! Server.first_segment name = None ->
  Server.tool_call (Server.get_naming env name) w =
    (Fulfilled (Server.error_content
                  ("Error: " +:+ Server.first_segment name +:+ " not configured")),
     w).
Proof.
  intros _ Hnone. unfold Server.tool_call, Server.get_naming, try_catch.
  cbn zeta. rewrite Hnone. reflexivity.
Qed.

(** X18.  A naming tool called for a service with a client never
    fails, whatever the remote answers with a readable body: for a
    status in 200-299 and a JSON body the result is the text of the
    indented serialization of the parsed body; for a body that is not
    JSON it is the engine's message for the parse failure, and for any
    other status the client's message with the service name, the
    status, the status text and the body, each after [Error: ] and
    marked as an error. *)
Theorem get_naming_renders_the_answer (env : string -> option string)
    (name : string) (client : ArrClient.t) w (response : Response.t)
    (text : string) :
  In name Server.naming_tools ->
  Server.clients env !! Server.first_segment name = Some client ->
  fst (net_fetch (mkFetchCall (ArrClient.request_url client "/config/naming")
                              (ArrClient.request_init client RequestInit.empty))
                 (net w)) = Fulfilled response ->
  Response.body response = Fulfilled text ->
  fst (Server.tool_call (Server.get_naming env name) w) =
    Fulfilled
      (if Response.ok response then
         match JSON_parse text with
         | Some naming =>
             Server.text_content (Server.JSON_stringify_indented naming)
         | None => Server.error_content ("Error: " +:+ Server.SyntaxError_message)
         end
       else Server.error_content
              ("Error: " +:+ ArrClient.error_message client response text)).
Proof.
  intros _ Hclient Hfetch Hbody.
  unfold Server.tool_call, Server.get_naming, try_catch. cbn zeta.
  rewrite Hclient. unfold bind, ArrClient.getNamingConfig.
  rewrite request_run. cbn [fst snd]. rewrite Hfetch. cbn.
  rewrite Hbody. destruct (Response.ok response); [| reflexivity].
  destruct (JSON_parse text); reflexivity.
Qed.

End ServerHandler.

(* ===================================================================== *)
(** * The further properties, run                                        *)
(* ===================================================================== *)

Section Runs.
#[local] Existing Instance Server.test_engine.

Lemma lookup_term_reaches_remote_witness :
  URLSearchParams.parse ("term=" +:+ encodeURIComponent "Amélie & Co=?")
    = [("term", "Amélie & Co=?")]
  /\ mem_ascii "&" (encodeURIComponent "Amélie & Co=?") = false.
Proof.
  destruct (lookup_term_reaches_remote Ops.LookupSeries "Amélie & Co=?"
              Scenario.client (TestRuntime.world []) eq_refl)
    as (query & _ & Hquery & Hparse & Hreserved).
  split.
  - rewrite <- Hquery. exact Hparse.
  - apply Hreserved. left. reflexivity.
Defined.

Lemma prowlarr_search_query_witness :
  map fetch_url
    (sent (snd (ProwlarrClient.search Scenario.client "big buck bunny"
                  (Some [2000; 5040]%Z) (TestRuntime.world [])))) =
    ["http://localhost:8989/api/v3/search?query=big+buck+bunny&categories=2000&categories=5040"].
Proof.
  destruct (prowlarr_search_query "big buck bunny" (Some [2000; 5040]%Z)
              Scenario.client (TestRuntime.world []) eq_refl eq_refl)
    as [Hsent _].
  rewrite Hsent. reflexivity.
Defined.

Lemma calendar_dates_sent_verbatim_witness :
  map fetch_url
    (sent (snd (invoke Scenario.client
                  (Spec.calendar_call Spec.LidarrCalendar
                     (Some "2025-01-01") (Some "2025-01-08"))
                  (TestRuntime.world [])))) =
    ["http://localhost:8989/api/v3/calendar?start=2025-01-01&end=2025-01-08"].
Proof.
  rewrite (calendar_dates_sent_verbatim Spec.LidarrCalendar
             "2025-01-01" "2025-01-08" Scenario.client (TestRuntime.world []));
    [reflexivity | discriminate | discriminate | reflexivity | reflexivity].
Defined.

Lemma getEpisodes_query_witness :
  exists query : string,
    map fetch_url
      (sent (snd (SonarrClient.getEpisodes Scenario.client 12 (Some 0%Z)
                    (TestRuntime.world [])))) =
      [ArrClient.request_url Scenario.client ("/episode?" +:+ query)]
    /\ URLSearchParams.parse query = [("seriesId", "12"); ("seasonNumber", "0")].
Proof.
  destruct (getEpisodes_query 12 (Some 0%Z) Scenario.client (TestRuntime.world [])
              eq_refl eq_refl) as (query & Hsent & Hparse).
  exists query. split.
  - rewrite Hsent. reflexivity.
  - exact Hparse.
Defined.

Lemma owned_list_filter_witness :
  exists path query : string,
    map fetch_url
      (sent (snd (invoke Scenario.client (Ops.owned_call Ops.Albums (Some 5%Z))
                    (TestRuntime.world [])))) =
      [ArrClient.request_url Scenario.client path]
    /\ path = "/album?" +:+ query
    /\ URLSearchParams.parse query = [("artistId", "5")].
Proof.
  destruct (owned_list_filter Ops.Albums (Some 5%Z) Scenario.client
              (TestRuntime.world [])) as (path & Hsent & _ & Hfilter).
  destruct (Hfilter 5%Z eq_refl ltac:(discriminate) eq_refl)
    as (query & Hpath & Hparse).
  exists path, query. split; [| split].
  - rewrite Hsent. reflexivity.
  - exact Hpath.
  - exact Hparse.
Defined.

Lemma methods_get_or_post_witness :
  exists call : FetchCall,
    sent (snd (invoke Scenario.client (CSearchSeries "Amélie")
                 (TestRuntime.world []))) = [call]
    /\ fetch_url call = "http://localhost:8989/api/v3/series/lookup?term=Am%C3%A9lie"
    /\ RequestInit.method (fetch_init call) = None
    /\ RequestInit.headers (fetch_init call) =
         Some {[ "Content-Type" := "application/json"; "X-Api-Key" := "abc123" ]}.
Proof.
  destruct (methods_get_or_post Scenario.client (CSearchSeries "Amélie")
              (TestRuntime.world []) eq_refl)
    as (call & Hsent & Hmethod & _ & Hheaders).
  exists call. split; [exact Hsent |].
  split; [| split; [exact Hmethod | exact Hheaders]].
  cbn [sent TestRuntime.world TestRuntime.state app] in Hsent.
  injection Hsent as <-. reflexivity.
Defined.

Lemma transport_failure_surfaces_witness :
  (forall call, fst (net_fetch call (net (TestRuntime.world []))) =
                Rejected (TypeError "fetch failed"))
  /\ fst (invoke Scenario.client CGetSeries (TestRuntime.world [])) =
       Rejected (TypeError "fetch failed").
Proof.
  assert (Hdown : forall call, fst (net_fetch call (net (TestRuntime.world []))) =
                               Rejected (TypeError "fetch failed"))
    by (intros call; reflexivity).
  split; [exact Hdown |].
  exact (proj1 (transport_failure_surfaces Scenario.client CGetSeries
                  (TestRuntime.world []) (TypeError "fetch failed") Hdown)).
Defined.

Lemma remote_answer_decides_witness :
  fst (invoke Scenario.client CGetTags
         (TestRuntime.world [Scenario.unauthorized_401])) =
    Rejected (Error "sonarr API error: 401 Unauthorized - Unauthorized").
Proof.
  rewrite (remote_answer_decides Scenario.client CGetTags
             (TestRuntime.world [Scenario.unauthorized_401])
             {| Response.status := 401; Response.statusText := "Unauthorized";
                Response.body := Fulfilled "Unauthorized" |} "Unauthorized");
    [reflexivity | discriminate | intros call; reflexivity | reflexivity].
Defined.

Lemma by_id_urls_differ_witness :
  map fetch_url
    (sent (snd (invoke Scenario.client (Ops.by_id_call Ops.SeriesById 1)
                  (TestRuntime.world [])))) <>
  map fetch_url
    (sent (snd (invoke Scenario.client (Ops.by_id_call Ops.SeriesById 2)
                  (TestRuntime.world [])))).
Proof.
  apply (by_id_urls_differ Ops.SeriesById 1 2 Scenario.client (TestRuntime.world []));
    [reflexivity | reflexivity | discriminate].
Defined.

Lemma add_keeps_entity_properties_witness :
  exists payload : gmap string JsValue,
    payload !! "monitored" = Some (JBool false)
    /\ payload !! "seasonFolder" = Some (JBool true).
Proof.
  destruct (add_keeps_entity_properties Spec.AddSeries
              (<["monitored" := JBool false]> Scenario.new_series)
              Scenario.client (TestRuntime.world []))
    as (payload & _ & _ & Hseason & Hmonitored).
  exists payload. split.
  - apply Hmonitored. reflexivity.
  - rewrite Hseason. reflexivity.
Defined.

Lemma trailing_slash_is_irrelevant_witness :
  (forall u, "http://localhost:8989" <> u +:+ "/")
  /\ family_constructor lidarr (mkArrConfig "http://localhost:8989/" "abc123") =
       family_constructor lidarr (mkArrConfig "http://localhost:8989" "abc123").
Proof.
  assert (Hno : forall u, "http://localhost:8989" <> u +:+ "/").
  { intros u Hu.
    pose proof (f_equal replace_trailing_slash Hu) as Hcut.
    rewrite replace_trailing_slash_snoc in Hcut. cbn in Hcut. subst u.
    vm_compute in Hu. discriminate Hu. }
  split; [exact Hno |].
  exact (trailing_slash_is_irrelevant lidarr "http://localhost:8989" "abc123" Hno).
Defined.

Lemma clients_are_the_configured_services_witness :
  Server.clients Server.sonarr_only !! "sonarr" =
    Some (SonarrClient.constructor (mkArrConfig "http://localhost:8989/" "abc123"))
  /\ Server.clients Server.sonarr_only !! "radarr" = None.
Proof.
  destruct (clients_are_the_configured_services Server.sonarr_only) as [Hservice _].
  split.
  - apply (Hservice (Server.mkServiceConfig sonarr "Sonarr (TV)"
                       (Some "http://localhost:8989/") (Some "abc123"))).
    left. reflexivity.
  - apply (Hservice (Server.mkServiceConfig radarr "Radarr (Movies)" None None)).
    right. left. reflexivity.
Defined.

Lemma arr_status_reports_every_service_witness :
  exists statuses : gmap string JsValue,
    fst (Server.arr_status Server.sonarr_and_radarr
           (TestRuntime.world [Scenario.status_200; Scenario.error_500])) =
      Fulfilled (Server.text_content (TestRuntime.stringify (JObject statuses)))
    /\ statuses !! "sonarr" =
         Some (JObject {[ "configured" := JBool true;
                          "connected" := JBool true;
                          "version" := JString "4.0.0";
                          "appName" := JString "Sonarr" ]})
    /\ statuses !! "radarr" =
         Some (JObject {[ "configured" := JBool true;
                          "connected" := JBool false;
                          "error" :=
                            JString "radarr API error: 500 Internal Server Error - down" ]})
    /\ statuses !! "lidarr" = Some (JObject {[ "configured" := JBool false ]}).
Proof.
  pose (sonarr_service :=
          Server.mkServiceConfig sonarr "Sonarr (TV)"
            (Some "http://localhost:8989/") (Some "abc123")).
  pose (radarr_service :=
          Server.mkServiceConfig radarr "Radarr (Movies)"
            (Some "http://localhost:7878") (Some "def456")).
  destruct (arr_status_reports_every_service Server.sonarr_and_radarr
              (TestRuntime.world [Scenario.status_200; Scenario.error_500]))
    as (statuses & Hresult & Hservices & Hentries & _).
  exists statuses. split; [exact Hresult |]. split; [| split].
  - exact (Hentries [] sonarr_service [radarr_service] eq_refl).
  - exact (Hentries [sonarr_service] radarr_service [] eq_refl).
  - apply (Hservices (Server.mkServiceConfig lidarr "Lidarr (Music)" None None)).
    right. right. left. reflexivity.
Defined.

Lemma arr_status_when_remote_is_down_witness :
  exists statuses : gmap string JsValue,
    fst (Server.arr_status Server.sonarr_only
           (TestRuntime.world [])) =
      Fulfilled (Server.text_content (TestRuntime.stringify (JObject statuses)))
    /\ statuses !! "sonarr" =
         Some (JObject {[ "configured" := JBool true;
                          "connected" := JBool false;
                          "error" := JString "fetch failed" ]}).
Proof.
  destruct (arr_status_when_remote_is_down
              Server.sonarr_only (TestRuntime.world []) (TypeError "fetch failed"))
    as (statuses & Hresult & Hentries); [intros call; reflexivity |].
  exists statuses. split; [exact Hresult |].
  apply (Hentries (Server.mkServiceConfig sonarr "Sonarr (TV)"
                     (Some "http://localhost:8989/") (Some "abc123"))).
  left. reflexivity.
Defined.

Lemma get_naming_without_client_witness :
  Server.tool_call
    (Server.get_naming Server.sonarr_only "radarr_get_naming")
    (TestRuntime.world [Scenario.ok_200]) =
    (Fulfilled (Server.error_content "Error: radarr not configured"),
     TestRuntime.world [Scenario.ok_200]).
Proof.
  apply (get_naming_without_client
           Server.sonarr_only "radarr_get_naming").
  - right. left. reflexivity.
  - reflexivity.
Defined.

Lemma get_naming_renders_the_answer_witness :
  fst (Server.tool_call
         (Server.get_naming Server.sonarr_only "sonarr_get_naming")
         (TestRuntime.world [Scenario.unauthorized_401])) =
    Fulfilled (Server.error_content
                 "Error: sonarr API error: 401 Unauthorized - Unauthorized").
Proof.
  rewrite (get_naming_renders_the_answer
             Server.sonarr_only "sonarr_get_naming"
             (SonarrClient.constructor (mkArrConfig "http://localhost:8989/" "abc123"))
             (TestRuntime.world [Scenario.unauthorized_401])
             {| Response.status := 401; Response.statusText := "Unauthorized";
                Response.body := Fulfilled "Unauthorized" |} "Unauthorized");
    [reflexivity | left; reflexivity | reflexivity | reflexivity | reflexivity].
Defined.

End Runs.

(* ===================================================================== *)
(** * The remote that never answers, run                                 *)
(* ===================================================================== *)

(** C9, as stated, fails where the remote never answers: the claim has
    [testConnection] return a boolean for every remote behaviour, the
    client waits for the answer without end. *)
Lemma testConnection_hung_remote_counterexample :
  let never := fun (_ : FetchCall) (_ : list (Settled Response.t)) => true in
  let w := TestRuntime.world [Scenario.ok_200] in
  Pending.testConnection (H := TestRuntime.runtime) never Scenario.client w = None
  /\ ~ (exists (b : bool) (w' : World),
          Pending.testConnection (H := TestRuntime.runtime) never Scenario.client w =
            Some (Fulfilled (JBool b), w')).
Proof.
  split; [reflexivity |]. intros (b & w' & Hreturns). discriminate Hreturns.
Qed.

Lemma testConnection_answers_by_remote_witness :
  let always := fun (_ : FetchCall) (_ : list (Settled Response.t)) => false in
  let w := TestRuntime.world [Scenario.unauthorized_401] in
  Pending.testConnection (H := TestRuntime.runtime) always Scenario.client w =
    Some (ArrClient.testConnection Scenario.client w)
  /\ fst (ArrClient.testConnection Scenario.client w) = Fulfilled (JBool false).
Proof.
  intros always w. split; [| reflexivity].
  apply (testConnection_answers_by_remote (H := TestRuntime.runtime)
           always Scenario.client w).
  reflexivity.
Defined.
